(** * Learnable bit-width parameters of brevitas

    A shallow embedding of [src/brevitas/core/bit_width/parameter.py]:
    the two modules [BitWidthParameter] and [RemoveBitwidthParameter],
    their constructors, their [forward] methods and their
    [_load_from_state_dict] hooks.

    Numeric model.  The code is given two readings.

    In the first, Python numbers and 0-dim tensors are exact rationals
    ([Qc], canonical fractions with Leibniz equality): integer arguments
    are [Z], real-valued arguments and parameters are [Qc].  A tensor
    division by zero is recorded as [NonFinite] (inf or nan) instead of
    raising, as torch does; Python-level division raises
    [ZeroDivisionError], as Python does.  This reading serves the
    properties in which no number is rounded: the order of the checks and
    their messages, the lower bound of [forward] and the checkpoint hooks.

    In the second ([IEEE] and [Rounded]) a Python float is a binary64
    number, a tensor holds binary32 numbers, every operation rounds to
    the nearest number of its format with ties to even, [float] of an
    integer past the range raises [OverflowError], and the policy object
    has a state that a call may write.  This reading serves the
    properties about the values that construction stores and [forward]
    returns. *)

From Stdlib Require Import ZArith QArith Qcanon Qcabs Qround Ascii String.
From Stdlib Require Import SpecFloat.
From stdpp Require Import base numbers strings list gmap pretty.

Local Open Scope Z_scope.
Local Open Scope Qc_scope.

(** ** Python values, exceptions and effects *)

(** The value of a Python float or of a 0-dim tensor with a finite entry. *)
Abbreviation scalar := Qc.

(** The result of a tensor division: finite, or one of inf/nan. *)
Inductive tensor : Type :=
  | Finite (x : scalar)
  | NonFinite.

(** The exceptions the modelled code can raise. *)
Inductive exn : Type :=
  | RuntimeError (msg : string)
  | ZeroDivisionError
  | OverflowError
  | KeyError (key : string)
  | ValueError.

Inductive result (A : Type) : Type :=
  | Ok (a : A)
  | Raise (e : exn).
Arguments Ok {A} a.
Arguments Raise {A} e.

Global Instance result_ret : MRet result := λ A a, Ok a.
Global Instance result_bind : MBind result := λ A B f m,
  match m with
  | Ok a => f a
  | Raise e => Raise e
  end.

(** A method body: it reads and writes the store [S] it runs on and either
    returns a value together with the new store or raises. *)
Definition Py (S A : Type) : Type := S → result (A * S).

Global Instance Py_ret {S} : MRet (Py S) := λ A a s, Ok (a, s).
Global Instance Py_bind {S} : MBind (Py S) := λ A B f m s,
  match m s with
  | Ok (a, s') => f a s'
  | Raise e => Raise e
  end.

Definition getattr {S A} (field : S → A) : Py S A := λ s, Ok (field s, s).
Definition modify {S} (f : S → S) : Py S unit := λ s, Ok (tt, f s).

(** [str.format] restricted to the positional placeholder, the only one the
    source uses: each occurrence takes the next argument; arguments left
    over are dropped, as in Python. *)
Fixpoint format (template : string) (args : list string) : string :=
  match template with
  | String "{"%char (String "}"%char rest) =>
      match args with
      | a :: args' => a +:+ format rest args'
      | [] => String "{"%char (String "}"%char (format rest []))
      end
  | String c rest => String c (format rest args)
  | EmptyString => EmptyString
  end.

(** [float(int(n))] on an integer argument. *)
Definition py_int (n : Z) : Z := n.
Definition py_float (n : Z) : scalar := Qc_of_Z n.

(** Python's [/] on numbers. *)
Definition py_truediv (a b : scalar) : result scalar :=
  if decide (b = 0) then Raise ZeroDivisionError else Ok (a / b).

(** torch's [/] on a 0-dim tensor: no exception, inf or nan on a zero
    divisor. *)
Definition torch_div (a b : scalar) : tensor :=
  if decide (b = 0) then NonFinite else Finite (a / b).

Definition torch_abs (x : scalar) : scalar := Qcabs x.

(** [torch.tensor(x)] of a Python float. *)
Definition torch_tensor (x : scalar) : scalar := x.

(** Module constants of parameter.py. *)
Definition MIN_INT_BIT_WIDTH : Z := 2.
Definition NON_ZERO_EPSILON : scalar := Q2Qc (1 # 1000000).
Definition REMOVE_ZERO_BIT_WIDTH : scalar := Q2Qc (1 # 10).

(** ** The store of a checkpoint restore

    [_load_from_state_dict] receives the module itself and mutable
    containers owned by the caller; every mutation is visible to the caller
    afterwards.  [local_metadata] is only handed on to the base class and is
    left out. *)
Record load_store (M : Type) : Type := {
  self : M;
  state_dict : gmap string scalar;
  missing_keys : list string;
  unexpected_keys : list string;
  error_msgs : list string
}.
Arguments self {M} _.
Arguments state_dict {M} _.
Arguments missing_keys {M} _.
Arguments unexpected_keys {M} _.
Arguments error_msgs {M} _.

Definition set_self {M} (m : M) (st : load_store M) : load_store M :=
  {| self := m;
     state_dict := state_dict st;
     missing_keys := missing_keys st;
     unexpected_keys := unexpected_keys st;
     error_msgs := error_msgs st |}.

Definition set_state_dict {M} (d : gmap string scalar) (st : load_store M)
    : load_store M :=
  {| self := self st;
     state_dict := d;
     missing_keys := missing_keys st;
     unexpected_keys := unexpected_keys st;
     error_msgs := error_msgs st |}.

Definition set_missing_keys {M} (l : list string) (st : load_store M)
    : load_store M :=
  {| self := self st;
     state_dict := state_dict st;
     missing_keys := l;
     unexpected_keys := unexpected_keys st;
     error_msgs := error_msgs st |}.

(** [key in state_dict] and [key in missing_keys]. *)
Definition dict_contains (d : gmap string scalar) (key : string) : bool :=
  bool_decide (is_Some (d !! key)).
Definition list_contains (l : list string) (key : string) : bool :=
  bool_decide (key ∈ l).

(** [del state_dict[key]]: [KeyError] on an absent key. *)
Definition dict_delitem {M} (key : string) : Py (load_store M) unit := λ st,
  match state_dict st !! key with
  | Some _ => Ok (tt, set_state_dict (delete key (state_dict st)) st)
  | None => Raise (KeyError key)
  end.

(** [list.remove(x)]: the first occurrence goes; [None] when there is
    none, where Python raises [ValueError]. *)
Fixpoint remove_first (x : string) (l : list string) : option (list string) :=
  match l with
  | [] => None
  | y :: l' =>
      if decide (x = y) then Some l'
      else l'' ← remove_first x l'; Some (y :: l'')
  end.

Definition list_remove {M} (key : string) : Py (load_store M) unit := λ st,
  match remove_first key (missing_keys st) with
  | Some l => Ok (tt, set_missing_keys l st)
  | None => Raise ValueError
  end.

(** ** The restriction policy

    [restrict_bit_width_impl] is an object of [brevitas.core.restrict_val],
    which is not part of the sources at hand; the code uses two operations
    of it, in this reading both functions of their argument. *)
Record RestrictValue : Type := {
  restrict_init_float : scalar → scalar;
  restrict_call : scalar → scalar
}.

Definition monotone (f : scalar → scalar) : Prop :=
  ∀ x y, x ≤ y → f x ≤ f y.

(** ** BitWidthParameter *)
Module BitWidthParameter.

Record t : Type := {
  bit_width_offset : scalar;
  bit_width_base : scalar;
  restrict_bit_width_impl : RestrictValue;
  override_pretrained : bool
}.

Definition set_bit_width_offset (v : scalar) (self : t) : t :=
  {| bit_width_offset := v;
     bit_width_base := bit_width_base self;
     restrict_bit_width_impl := restrict_bit_width_impl self;
     override_pretrained := override_pretrained self |}.

Section Forward.
(** The forward value of [brevitas.function.abs_binary_sign_grad], which
    is not part of the sources at hand. *)
Variable abs_binary_sign_grad : scalar → scalar.

Definition forward : Py t scalar :=
  offset ← getattr bit_width_offset;
  base ← getattr bit_width_base;
  impl ← getattr restrict_bit_width_impl;
  let bit_width := abs_binary_sign_grad offset + base in
  let bit_width := restrict_call impl bit_width in
  mret bit_width.
End Forward.

Section Load.
(** [brevitas.config.IGNORE_MISSING_KEYS], and the hook of the base class
    [torch.nn.Module] the override delegates to. *)
Variable IGNORE_MISSING_KEYS : bool.
Variable Module_load_from_state_dict :
  string → bool → load_store t → load_store t.

Definition _load_from_state_dict (prefix : string) (strict : bool)
    : Py (load_store t) unit :=
  let bit_width_offset_key := prefix +:+ "bit_width_offset" in
  override ← getattr (λ st, override_pretrained (self st));
  in_state_dict ←
    getattr (λ st, dict_contains (state_dict st) bit_width_offset_key);
  (if override && in_state_dict
   then dict_delitem bit_width_offset_key else mret tt);;
  modify (Module_load_from_state_dict prefix strict);;
  in_missing_keys ←
    getattr (λ st, list_contains (missing_keys st) bit_width_offset_key);
  if IGNORE_MISSING_KEYS && in_missing_keys
  then list_remove bit_width_offset_key else mret tt.
End Load.

End BitWidthParameter.

(** ** RemoveBitwidthParameter *)
Module RemoveBitwidthParameter.

Record t : Type := {
  bit_width_coeff : scalar;
  non_zero_epsilon : scalar;
  override_pretrained : bool
}.

Definition set_bit_width_coeff (v : scalar) (self : t) : t :=
  {| bit_width_coeff := v;
     non_zero_epsilon := non_zero_epsilon self;
     override_pretrained := override_pretrained self |}.

Definition __init__ (bit_width_to_remove : Z)
    (override_pretrained_bit_width : bool)
    (non_zero_epsilon remove_zero_bit_width : scalar) : result t :=
  bit_width_coeff_init ←
    (if (bit_width_to_remove <? 0)%Z then
       Raise (RuntimeError
         (format "Bit width to clamp has to be >= 0."
            [pretty bit_width_to_remove]))
     else if (bit_width_to_remove =? 0)%Z then
       py_truediv 1 remove_zero_bit_width
     else
       py_truediv 1 (py_float bit_width_to_remove));
  mret {| bit_width_coeff := torch_tensor bit_width_coeff_init;
          non_zero_epsilon := non_zero_epsilon;
          override_pretrained := override_pretrained_bit_width |}.

Definition forward : Py t tensor :=
  eps ← getattr non_zero_epsilon;
  coeff ← getattr bit_width_coeff;
  let bit_width_to_remove := torch_div 1 (eps + torch_abs coeff) in
  mret bit_width_to_remove.

Section Load.
Variable IGNORE_MISSING_KEYS : bool.
Variable Module_load_from_state_dict :
  string → bool → load_store t → load_store t.

Definition _load_from_state_dict (prefix : string) (strict : bool)
    : Py (load_store t) unit :=
  let bit_width_coeff_key := prefix +:+ "bit_width_coeff" in
  override ← getattr (λ st, override_pretrained (self st));
  in_state_dict ←
    getattr (λ st, dict_contains (state_dict st) bit_width_coeff_key);
  (if override && in_state_dict
   then dict_delitem bit_width_coeff_key else mret tt);;
  modify (Module_load_from_state_dict prefix strict);;
  in_missing_keys ←
    getattr (λ st, list_contains (missing_keys st) bit_width_coeff_key);
  if IGNORE_MISSING_KEYS && in_missing_keys
  then list_remove bit_width_coeff_key else mret tt.
End Load.

End RemoveBitwidthParameter.

(** ** External collaborators, for running the code on concrete inputs *)

(** Modelled from the spec: the forward pass of [abs_binary_sign_grad]
    ([brevitas.function], not among the sources) is the absolute value. *)
Definition abs_binary_sign_grad (x : scalar) : scalar := Qcabs x.

(** [torch.round]: to the nearest integer, ties to the even one. *)
Definition round_half_even (x : scalar) : scalar :=
  let f := Qfloor x in
  let d := x - Qc_of_Z f in
  let half := Q2Qc (1 # 2) in
  if decide (d < half) then Qc_of_Z f
  else if decide (half < d) then Qc_of_Z (f + 1)
  else if Z.even f then Qc_of_Z f else Qc_of_Z (f + 1).

(** Modelled from the spec: the default policy, a round-based integer
    restriction ([IntRestrictValue(RoundSte())] of
    [brevitas.core.restrict_val], not among the sources): initial values
    pass unchanged and the running value is rounded. *)
Definition IntRestrictValue_RoundSte : RestrictValue :=
  {| restrict_init_float := λ x, x;
     restrict_call := round_half_even |}.

(** The hook of [torch.nn.Module] for a module that registers the single
    parameter [name]: a saved value under [prefix + name] is copied into
    the parameter; without one the key is reported missing when [strict].
    The saved-state mapping is only read.  The report of unexpected keys
    is not needed below and is left as it is. *)
Definition Module_load_from_state_dict {M} (name : string)
    (set_param : scalar → M → M) (prefix : string) (strict : bool)
    (st : load_store M) : load_store M :=
  let key := prefix +:+ name in
  match state_dict st !! key with
  | Some input_param => set_self (set_param input_param (self st)) st
  | None =>
      if strict then set_missing_keys (missing_keys st ++ [key]) st else st
  end.

(** ** IEEE 754 arithmetic

    Python floats are binary64 numbers and the tensors of the two modules
    hold binary32 numbers.  A float is a finite rational, an infinity or
    nan; every operation computes the exact result and rounds it to the
    format, to the nearest number with ties to the even significand.  The
    sign of a zero is not recorded: the zeros that reach a division in the
    code are sums and absolute values, which are [+0]. *)
Module IEEE.

Record binary_format : Type := { prec : Z; emax : Z }.

Definition binary32 : binary_format := {| prec := 24; emax := 128 |}.
Definition binary64 : binary_format := {| prec := 53; emax := 1024 |}.

(** The smallest positive number of a format is [2 ^ emin]; rounding
    counts in this unit.  [2 ^ emax] is the first magnitude past the
    finite numbers. *)
Definition emin (fmt : binary_format) : Z := (3 - emax fmt - prec fmt)%Z.
Definition units_per_one (fmt : binary_format) : Z := (2 ^ (- emin fmt))%Z.
Definition overflow_units (fmt : binary_format) : Z := (2 ^ (emax fmt - emin fmt))%Z.

(** The nearest integer, ties to the even one. *)
Definition rne (x : Qc) : Z :=
  let f := Qfloor x in
  let d := x - Qc_of_Z f in
  let half := Q2Qc (1 # 2) in
  if decide (d < half) then f
  else if decide (half < d) then (f + 1)%Z
  else if Z.even f then f else (f + 1)%Z.

(** [x >= 0] units, rounded to a significand of [p] bits: the last [s]
    bits of the integer part are given up when it has more than [p]; no
    bit below the unit is kept (the subnormal range). *)
Definition round_units (p : Z) (x : Qc) : Z :=
  let s := Z.max (Z.log2 (Qfloor x) - p + 1) 0 in
  (rne (x / Qc_of_Z (2 ^ s)) * 2 ^ s)%Z.

Inductive float : Type :=
  | Fin (q : Qc)
  | PInf
  | NInf
  | NaN.

Definition f_opp (x : float) : float :=
  match x with
  | Fin q => Fin (- q)
  | PInf => NInf
  | NInf => PInf
  | NaN => NaN
  end.

Definition rnd_nonneg (fmt : binary_format) (q : Qc) : float :=
  let u := round_units (prec fmt) (q * Qc_of_Z (units_per_one fmt)) in
  if (overflow_units fmt <=? u)%Z then PInf
  else Fin (Qc_of_Z u / Qc_of_Z (units_per_one fmt)).

(** The number of the format nearest to [q], an infinity past the range. *)
Definition rnd (fmt : binary_format) (q : Qc) : float :=
  if decide (0 ≤ q) then rnd_nonneg fmt q else f_opp (rnd_nonneg fmt (- q)).

(** Conversion to a format, as [torch.tensor] of a Python float does. *)
Definition f_conv (fmt : binary_format) (x : float) : float :=
  match x with
  | Fin q => rnd fmt q
  | _ => x
  end.

Definition f_abs (x : float) : float :=
  match x with
  | Fin q => Fin (Qcabs q)
  | PInf | NInf => PInf
  | NaN => NaN
  end.

Definition f_add (fmt : binary_format) (x y : float) : float :=
  match x, y with
  | NaN, _ | _, NaN => NaN
  | PInf, NInf | NInf, PInf => NaN
  | PInf, _ | _, PInf => PInf
  | NInf, _ | _, NInf => NInf
  | Fin a, Fin b => rnd fmt (a + b)
  end.

Definition f_sub (fmt : binary_format) (x y : float) : float :=
  f_add fmt x (f_opp y).

(** Division does not raise: a zero divisor gives an infinity, or nan for
    [0 / 0]. *)
Definition f_div (fmt : binary_format) (x y : float) : float :=
  match x, y with
  | NaN, _ | _, NaN => NaN
  | Fin _, (PInf | NInf) => Fin 0
  | (PInf | NInf), (PInf | NInf) => NaN
  | PInf, Fin b => if decide (0 ≤ b) then PInf else NInf
  | NInf, Fin b => if decide (0 ≤ b) then NInf else PInf
  | Fin a, Fin b =>
      if decide (b = 0) then
        if decide (a = 0) then NaN else if decide (0 < a) then PInf else NInf
      else rnd fmt (a / b)
  end.

(** [torch.round] on a tensor: the nearest integer, ties to even; the
    result of rounding a number of the format is one again. *)
Definition f_round (x : float) : float :=
  match x with
  | Fin q => Fin (Qc_of_Z (rne q))
  | _ => x
  end.

(** The order of floats; nan compares with nothing. *)
Definition f_le (x y : float) : Prop :=
  match x, y with
  | NaN, _ | _, NaN => False
  | NInf, _ => True
  | _, PInf => True
  | Fin a, Fin b => a ≤ b
  | _, _ => False
  end.

(** [q] is a number of the format. *)
Definition representable (fmt : binary_format) (q : Qc) : Prop :=
  rnd fmt q = Fin q.

(** [2 ^ emax], above every finite number of the format. *)
Definition huge (fmt : binary_format) : Qc :=
  Qc_of_Z (overflow_units fmt) / Qc_of_Z (units_per_one fmt).

(** Formats with at least one bit of precision, a unit that is at most
    [1] and a range that reaches past [2 ^ prec]. *)
Definition well_formed (fmt : binary_format) : Prop :=
  (1 ≤ prec fmt)%Z ∧ (emin fmt ≤ 0)%Z ∧ (prec fmt < emax fmt)%Z.

(** The reading of a float of the Standard Library's [SpecFloat]. *)
Definition of_SF (x : spec_float) : float :=
  match x with
  | S754_zero _ => Fin 0
  | S754_infinity s => if s then NInf else PInf
  | S754_nan => NaN
  | S754_finite s m e =>
      let v := Q2Qc (inject_Z (Zpos m) * Qpower 2 e) in
      Fin (if s then - v else v)
  end.

Definition same (x y : float) : bool :=
  match x, y with
  | Fin a, Fin b => bool_decide (a = b)
  | PInf, PInf | NInf, NInf | NaN, NaN => true
  | _, _ => false
  end.

(** [rnd] against [SpecFloat]'s rounding at [m * 2 ^ e], and over [n]
    significands in a row. *)
Definition agrees (fmt : binary_format) (m e : Z) : bool :=
  same (of_SF (binary_normalize (prec fmt) (emax fmt) m e false))
       (rnd fmt (Q2Qc (inject_Z m * Qpower 2 e))).

Definition agrees_from (fmt : binary_format) (e : Z) (n : nat) (m : Z) : bool :=
  forallb (λ k, agrees fmt (m + Z.of_nat k) e) (seq 0 n).

(** The operations against [SpecFloat]'s at [m1 * 2 ^ e1] and
    [m2 * 2 ^ e2], both rounded to the format first. *)
Definition operations_agree (fmt : binary_format) (m1 e1 m2 e2 : Z) : bool :=
  let x := binary_normalize (prec fmt) (emax fmt) m1 e1 false in
  let y := binary_normalize (prec fmt) (emax fmt) m2 e2 false in
  same (of_SF (SFadd (prec fmt) (emax fmt) x y))
       (f_add fmt (of_SF x) (of_SF y))
  && same (of_SF (SFsub (prec fmt) (emax fmt) x y))
          (f_sub fmt (of_SF x) (of_SF y))
  && same (of_SF (SFdiv (prec fmt) (emax fmt) x y))
          (f_div fmt (of_SF x) (of_SF y)).

End IEEE.
Import IEEE.

(** ** The two modules in IEEE arithmetic

    The definitions of [BitWidthParameter] and [RemoveBitwidthParameter]
    above compute with exact numbers; they serve the properties that do
    not depend on rounding (the order of the checks, the errors, the
    lower bound of [forward], the checkpoint hooks).  The definitions
    here follow the same source lines with every conversion and rounding
    the code performs: [float(int(..))] and Python's [/] give doubles,
    [torch.tensor] stores a double as binary32, and tensor arithmetic is
    binary32 arithmetic in which a Python scalar operand is converted to
    binary32 first.  The policy is an object with a state of its own,
    which a call may write. *)
Module Rounded.

(** [float(n)] of an integer: the nearest double; [OverflowError] when
    that would be an infinity. *)
Definition py_float (n : Z) : result float :=
  match rnd binary64 (Qc_of_Z n) with
  | Fin q => Ok (Fin q)
  | _ => Raise OverflowError
  end.

(** [a / b] of two integers: the double nearest to the quotient. *)
Definition py_truediv_int (a b : Z) : result float :=
  if (b =? 0)%Z then Raise ZeroDivisionError
  else
    match rnd binary64 (Qc_of_Z a / Qc_of_Z b) with
    | Fin q => Ok (Fin q)
    | _ => Raise OverflowError
    end.

(** [a / b] of an integer [a] and a float [b]: [a] becomes a float, a
    zero divisor raises, and the division itself does not. *)
Definition py_truediv (a : Z) (b : float) : result float :=
  a' ← py_float a;
  match b with
  | Fin q => if decide (q = 0) then Raise ZeroDivisionError
             else Ok (f_div binary64 a' b)
  | _ => Ok (f_div binary64 a' b)
  end.

(** [torch.tensor(x)] of a Python float: a binary32 tensor. *)
Definition torch_tensor (x : float) : float := f_conv binary32 x.

(** A float literal of the source text: the double nearest to the
    decimal. *)
Definition py_literal (q : Q) : float := rnd binary64 (Q2Qc q).

Definition NON_ZERO_EPSILON : float := py_literal (1 # 1000000).
Definition REMOVE_ZERO_BIT_WIDTH : float := py_literal (1 # 10).

(** The methods of a policy object with state [P] (a module may own
    buffers and flags): [restrict_init_float] maps a Python float to a
    Python float; calling the object maps a tensor to a tensor and, as
    any method, may write the object's state or raise. *)
Record RestrictValue (P : Type) : Type := {
  restrict_init_float : float → float;
  restrict_call : float → Py P float
}.
Arguments restrict_init_float {P} _ _.
Arguments restrict_call {P} _ _ _.

Module BitWidthParameter.

Record t (P : Type) : Type := {
  bit_width_offset : float;
  bit_width_base : float;
  restrict_bit_width_impl : P;
  override_pretrained : bool
}.
Arguments bit_width_offset {P} _.
Arguments bit_width_base {P} _.
Arguments restrict_bit_width_impl {P} _.
Arguments override_pretrained {P} _.

Definition set_bit_width_offset {P} (v : float) (self : t P) : t P :=
  {| bit_width_offset := v;
     bit_width_base := bit_width_base self;
     restrict_bit_width_impl := restrict_bit_width_impl self;
     override_pretrained := override_pretrained self |}.

Definition set_restrict_bit_width_impl {P} (p : P) (self : t P) : t P :=
  {| bit_width_offset := bit_width_offset self;
     bit_width_base := bit_width_base self;
     restrict_bit_width_impl := p;
     override_pretrained := override_pretrained self |}.

Section Policy.
(** The class of the policy object; the object itself is its state. *)
Context {P : Type}.
Variable methods : RestrictValue P.

Definition __init__ (bit_width min_bit_width : Z)
    (restrict_bit_width_impl : P)
    (override_pretrained_bit_width : bool) : result (t P) :=
  if (bit_width <? MIN_INT_BIT_WIDTH)%Z then
    Raise (RuntimeError
      (format "Int bit width has to be at least {}, instead is {}."
         [pretty MIN_INT_BIT_WIDTH; pretty bit_width]))
  else if (min_bit_width <? MIN_INT_BIT_WIDTH)%Z then
    Raise (RuntimeError
      (format "Min int bit width has to be at least {}, instead is {}."
         [pretty MIN_INT_BIT_WIDTH; pretty min_bit_width]))
  else if (bit_width <? min_bit_width)%Z then
    Raise (RuntimeError
      (format "Int bit width has to be at least {}, instead is {}."
         [pretty min_bit_width; pretty bit_width]))
  else
    bit_width ← py_float (py_int bit_width);
    min_bit_width ← py_float (py_int min_bit_width);
    let bit_width_base := restrict_init_float methods min_bit_width in
    let bit_width := restrict_init_float methods bit_width in
    let bit_width_offset_init := f_sub binary64 bit_width bit_width_base in
    Ok {| bit_width_offset := torch_tensor bit_width_offset_init;
          bit_width_base := bit_width_base;
          restrict_bit_width_impl := restrict_bit_width_impl;
          override_pretrained := override_pretrained_bit_width |}.

(** [self.restrict_bit_width_impl(x)]: the policy runs on its own state,
    which is an attribute of the module. *)
Definition call_restrict_bit_width_impl (x : float) : Py (t P) float :=
  λ self,
    match restrict_call methods x (restrict_bit_width_impl self) with
    | Ok (v, p) => Ok (v, set_restrict_bit_width_impl p self)
    | Raise e => Raise e
    end.

(** The forward value of [brevitas.function.abs_binary_sign_grad], a
    function of the tensor that is not part of the sources at hand. *)
Variable abs_binary_sign_grad : float → float.

Definition forward : Py (t P) float :=
  offset ← getattr bit_width_offset;
  base ← getattr bit_width_base;
  let bit_width :=
    f_add binary32 (abs_binary_sign_grad offset) (f_conv binary32 base) in
  bit_width ← call_restrict_bit_width_impl bit_width;
  mret bit_width.
End Policy.

End BitWidthParameter.

Module RemoveBitwidthParameter.

Record t : Type := {
  bit_width_coeff : float;
  non_zero_epsilon : float;
  override_pretrained : bool
}.

Definition __init__ (bit_width_to_remove : Z)
    (override_pretrained_bit_width : bool)
    (non_zero_epsilon remove_zero_bit_width : float) : result t :=
  bit_width_coeff_init ←
    (if (bit_width_to_remove <? 0)%Z then
       Raise (RuntimeError
         (format "Bit width to clamp has to be >= 0."
            [pretty bit_width_to_remove]))
     else if (bit_width_to_remove =? 0)%Z then
       py_truediv 1 remove_zero_bit_width
     else
       py_truediv_int 1 bit_width_to_remove);
  mret {| bit_width_coeff := torch_tensor bit_width_coeff_init;
          non_zero_epsilon := non_zero_epsilon;
          override_pretrained := override_pretrained_bit_width |}.

Definition forward : Py t float :=
  eps ← getattr non_zero_epsilon;
  coeff ← getattr bit_width_coeff;
  let bit_width_to_remove :=
    f_div binary32 (Fin 1)
      (f_add binary32 (f_conv binary32 eps) (f_abs coeff)) in
  mret bit_width_to_remove.

End RemoveBitwidthParameter.

(** Modelled from the spec: the forward pass of [abs_binary_sign_grad]
    ([brevitas.function], not among the sources) is the absolute value. *)
Definition abs_binary_sign_grad (x : float) : float := f_abs x.

(** Modelled from the spec: the default policy, a round-based integer
    restriction ([IntRestrictValue(RoundSte())] of
    [brevitas.core.restrict_val], not among the sources): initial values
    pass unchanged, the running value is rounded, and the object has no
    state. *)
Definition IntRestrictValue_RoundSte : RestrictValue unit :=
  {| restrict_init_float := λ x, x;
     restrict_call := λ x p, Ok (f_round x, p) |}.

End Rounded.

(** ** Vocabulary of the statements below *)

(** A call that ends in a [RuntimeError], the exception the constructors
    use for a rejected configuration. *)
Definition raises_RuntimeError {A} (r : result A) : Prop :=
  ∃ msg, r = Raise (RuntimeError msg).

(** The store the base class receives: the saved value under [key] is
    gone when the override applies. *)
Definition store_at_delegation {M} (override : bool) (key : string)
    (st : load_store M) : load_store M :=
  if override && dict_contains (state_dict st) key
  then set_state_dict (delete key (state_dict st)) st else st.

(** The store the caller gets back from what the base class produced. *)
Definition store_after_suppression {M} (flag : bool) (key : string)
    (st : load_store M) : load_store M :=
  if flag && list_contains (missing_keys st) key
  then set_missing_keys
         (default (missing_keys st) (remove_first key (missing_keys st))) st
  else st.

(** What the override of [_load_from_state_dict] promises about a saved
    value: when the module overrides pretrained values and [key] is saved,
    the base class runs on the mapping without [key], the caller's mapping
    has lost it and the parameter keeps the value it had; otherwise the
    base class runs on the store as given and the mapping stays whole. *)
Definition discards_saved_value {M} (param : M → scalar) (override : M → bool)
    (key : string) (load : load_store M → load_store M)
    (hook : Py (load_store M) unit) : Prop :=
  ∀ st, ∃ st',
    hook st = Ok (tt, st')
    ∧ (override (self st) = true → is_Some (state_dict st !! key) →
         self st'
         = self (load (set_state_dict (delete key (state_dict st)) st))
         ∧ state_dict st' = delete key (state_dict st)
         ∧ state_dict st' !! key = None
         ∧ param (self st') = param (self st))
    ∧ (override (self st) = false ∨ state_dict st !! key = None →
         self st' = self (load st)
         ∧ state_dict st' = state_dict st).

(** What the override promises about the list of missing keys, in terms of
    the store [delegated] the base class produced: with the flag set, the
    first occurrence of [key] is taken out; with the flag unset, or when
    [key] is not reported, the list is the one of [delegated].  Nothing
    else of [delegated] changes. *)
Definition suppresses_missing_key {M} (flag : bool) (override : M → bool)
    (key : string) (load : load_store M → load_store M)
    (hook : Py (load_store M) unit) : Prop :=
  ∀ st,
    let delegated := load (store_at_delegation (override (self st)) key st) in
    ∃ st',
      hook st = Ok (tt, st')
      ∧ self st' = self delegated
      ∧ state_dict st' = state_dict delegated
      ∧ unexpected_keys st' = unexpected_keys delegated
      ∧ error_msgs st' = error_msgs delegated
      ∧ (flag = true → key ∈ missing_keys delegated →
           ∃ l1 l2, missing_keys delegated = l1 ++ key :: l2
                  ∧ (key ∉ l1) ∧ missing_keys st' = l1 ++ l2)
      ∧ (flag = true → NoDup (missing_keys delegated) →
           key ∉ missing_keys st')
      ∧ (flag = false → missing_keys st' = missing_keys delegated)
      ∧ (key ∉ missing_keys delegated →
           missing_keys st' = missing_keys delegated).

(** A module that overrides pretrained values, restored from a checkpoint
    that saved offset [5] for it. *)
Definition fresh_module : BitWidthParameter.t :=
  {| BitWidthParameter.bit_width_offset := Q2Qc 6;
     BitWidthParameter.bit_width_base := Q2Qc 2;
     BitWidthParameter.restrict_bit_width_impl := IntRestrictValue_RoundSte;
     BitWidthParameter.override_pretrained := true |}.

Definition checkpoint : load_store BitWidthParameter.t :=
  {| self := fresh_module;
     state_dict := {[ "quant.bit_width_offset" := Q2Qc 5 ]};
     missing_keys := [];
     unexpected_keys := [];
     error_msgs := [] |}.

(** The first integer that [float] does not convert: half a step past the
    largest double. *)
Definition py_float_limit : Z := (2 ^ 1024 - 2 ^ 970)%Z.

(** The module of [Rounded.RemoveBitwidthParameter] with coefficient [c]. *)
Definition removal_module (eps : float) (o : bool) (c : Qc)
    : Rounded.RemoveBitwidthParameter.t :=
  {| Rounded.RemoveBitwidthParameter.bit_width_coeff := Fin c;
     Rounded.RemoveBitwidthParameter.non_zero_epsilon := eps;
     Rounded.RemoveBitwidthParameter.override_pretrained := o |}.

(** The quotient [1 / (epsilon + |c|)] in binary32, for an epsilon that
    is [e32] as a tensor operand: the sum is rounded, then the quotient. *)
Definition removal_output (e32 c : Qc) : float :=
  f_div binary32 (Fin 1) (f_add binary32 (Fin e32) (Fin (Qcabs c))).

(** Two calls of a method, one after the other. *)
Definition twice {S A} (call : Py S A) : Py S (A * A) :=
  x ← call; y ← call; mret (x, y).


(** A policy that counts its calls and returns the count added to its
    argument. *)
Definition counting_policy : Rounded.RestrictValue Z :=
  {| Rounded.restrict_init_float := λ x, x;
     Rounded.restrict_call := λ x n,
       Ok (f_add binary32 x (Fin (Qc_of_Z n)), (n + 1)%Z) |}.

(** * Properties *)

(** ** Comparisons *)

Lemma Z_ltb_cases (a b : Z) :
  ((a <? b)%Z = true ∧ (a < b)%Z) ∨ ((a <? b)%Z = false ∧ (b ≤ a)%Z).
Proof. destruct (Z.ltb_spec a b); auto. Qed.

Ltac case_ltb a b :=
  let H := fresh "Hcmp" in
  let E := fresh "Eltb" in
  destruct (Z_ltb_cases a b) as [[E H]|[E H]]; rewrite ?E in *.

(** ** Construction of [RemoveBitwidthParameter] *)

Lemma py_float_nonzero (n : Z) : n ≠ 0%Z → py_float n ≠ 0.
Proof.
  intros Hn Hz. apply Hn. apply Z2Qc_inj. rewrite Z2Qc_inj_0. exact Hz.
Qed.

Lemma py_truediv_nonzero (a b : scalar) : b ≠ 0 → py_truediv a b = Ok (a / b).
Proof. intros Hb. unfold py_truediv. destruct (decide (b = 0)); easy. Qed.

Lemma py_truediv_zero (a : scalar) : py_truediv a 0 = Raise ZeroDivisionError.
Proof. unfold py_truediv. destruct (decide (0 = 0)); easy. Qed.

Lemma RemoveBitwidthParameter_init_negative
    (bit_width_to_remove : Z) (o : bool) (eps rz : scalar) :
  (bit_width_to_remove < 0)%Z →
  RemoveBitwidthParameter.__init__ bit_width_to_remove o eps rz
  = Raise (RuntimeError "Bit width to clamp has to be >= 0.").
Proof.
  intros Hneg. unfold RemoveBitwidthParameter.__init__.
  destruct (Z.ltb_spec bit_width_to_remove 0); [reflexivity|lia].
Qed.

Lemma RemoveBitwidthParameter_init_zero (o : bool) (eps rz : scalar) :
  RemoveBitwidthParameter.__init__ 0 o eps rz
  = c ← py_truediv 1 rz;
    Ok {| RemoveBitwidthParameter.bit_width_coeff := c;
          RemoveBitwidthParameter.non_zero_epsilon := eps;
          RemoveBitwidthParameter.override_pretrained := o |}.
Proof. reflexivity. Qed.

Lemma RemoveBitwidthParameter_init_positive
    (bit_width_to_remove : Z) (o : bool) (eps rz : scalar) :
  (0 < bit_width_to_remove)%Z →
  RemoveBitwidthParameter.__init__ bit_width_to_remove o eps rz
  = Ok {| RemoveBitwidthParameter.bit_width_coeff :=
            1 / py_float bit_width_to_remove;
          RemoveBitwidthParameter.non_zero_epsilon := eps;
          RemoveBitwidthParameter.override_pretrained := o |}.
Proof.
  intros Hpos. unfold RemoveBitwidthParameter.__init__.
  destruct (Z.ltb_spec bit_width_to_remove 0); [lia|].
  destruct (Z.eqb_spec bit_width_to_remove 0); [lia|].
  rewrite py_truediv_nonzero by (apply py_float_nonzero; lia).
  reflexivity.
Qed.

Lemma REMOVE_ZERO_BIT_WIDTH_nonzero : REMOVE_ZERO_BIT_WIDTH ≠ 0.
Proof. discriminate. Qed.

(** [forward] of [RemoveBitwidthParameter] always returns and leaves the
    module as it was. *)
Lemma RemoveBitwidthParameter_forward_run (m : RemoveBitwidthParameter.t) :
  RemoveBitwidthParameter.forward m
  = Ok (torch_div 1 (RemoveBitwidthParameter.non_zero_epsilon m
                     + torch_abs (RemoveBitwidthParameter.bit_width_coeff m)),
        m).
Proof. reflexivity. Qed.

(** C8: construction of [RemoveBitwidthParameter] is rejected with a
    [RuntimeError] exactly when [bit_width_to_remove < 0]; for every
    [bit_width_to_remove >= 0] and the default [remove_zero_bit_width] it
    succeeds; [forward] never raises. *)
Theorem RemoveBitwidthParameter_init_validation
    (bit_width_to_remove : Z) (o : bool) (eps rz : scalar) :
  (raises_RuntimeError
     (RemoveBitwidthParameter.__init__ bit_width_to_remove o eps rz)
   ↔ (bit_width_to_remove < 0)%Z)
  ∧ ((0 ≤ bit_width_to_remove)%Z →
       ∃ m, RemoveBitwidthParameter.__init__ bit_width_to_remove o eps
              REMOVE_ZERO_BIT_WIDTH = Ok m)
  ∧ (∀ m, ∃ v, RemoveBitwidthParameter.forward m = Ok (v, m)).
Proof.
  split; [split|split].
  - intros [msg Hr].
    destruct (Z.lt_trichotomy bit_width_to_remove 0%Z) as [Hlt|[->|Hgt]].
    + exact Hlt.
    + rewrite RemoveBitwidthParameter_init_zero in Hr.
      unfold py_truediv in Hr. destruct (decide (rz = 0)); discriminate Hr.
    + rewrite RemoveBitwidthParameter_init_positive in Hr by exact Hgt.
      discriminate Hr.
  - intros Hneg. eexists.
    apply RemoveBitwidthParameter_init_negative, Hneg.
  - intros Hnn.
    destruct (Z.eq_dec bit_width_to_remove 0%Z) as [->|Hne].
    + rewrite RemoveBitwidthParameter_init_zero.
      rewrite py_truediv_nonzero by exact REMOVE_ZERO_BIT_WIDTH_nonzero.
      eexists; reflexivity.
    + rewrite RemoveBitwidthParameter_init_positive by lia.
      eexists; reflexivity.
  - intros m. eexists. apply RemoveBitwidthParameter_forward_run.
Qed.

(** C10: [remove_zero_bit_width] and [non_zero_epsilon] are not validated.
    With [bit_width_to_remove = 0] and [remove_zero_bit_width = 0] the
    division of the constructor raises [ZeroDivisionError], which is not
    the [RuntimeError] of a rejected configuration; any other
    [remove_zero_bit_width] and any [non_zero_epsilon], negative ones
    included, are accepted as they are. *)
Theorem RemoveBitwidthParameter_init_unguarded_division
    (o : bool) (eps : scalar) :
  RemoveBitwidthParameter.__init__ 0 o eps 0 = Raise ZeroDivisionError
  ∧ ¬ raises_RuntimeError (RemoveBitwidthParameter.__init__ 0 o eps 0)
  ∧ (∀ rz, rz ≠ 0 →
       RemoveBitwidthParameter.__init__ 0 o eps rz
       = Ok {| RemoveBitwidthParameter.bit_width_coeff := 1 / rz;
               RemoveBitwidthParameter.non_zero_epsilon := eps;
               RemoveBitwidthParameter.override_pretrained := o |}).
Proof.
  rewrite RemoveBitwidthParameter_init_zero, py_truediv_zero.
  split; [reflexivity|split].
  - intros [msg Hr]. discriminate Hr.
  - intros rz Hrz. rewrite RemoveBitwidthParameter_init_zero.
    rewrite py_truediv_nonzero by exact Hrz. reflexivity.
Qed.

(** ** Rational arithmetic *)

Ltac qc_eq := apply Qc_is_canon; vm_compute; reflexivity.
Ltac qc_cmp := vm_compute; first [reflexivity | discriminate].

Lemma Qc_pos_nonzero (a : scalar) : 0 < a → a ≠ 0.
Proof. intros Ha ->. by apply (Qclt_not_eq 0 0). Qed.

Lemma Qcinv_le_antitone (a b : scalar) : 0 < a → a ≤ b → / b ≤ / a.
Proof.
  intros Ha Hab.
  assert (Hb : 0 < b) by (eapply Qclt_le_trans; eauto).
  pose proof (Qc_pos_nonzero a Ha). pose proof (Qc_pos_nonzero b Hb).
  apply (Qcmult_le_mono_pos_r _ _ (a * b)); [by apply Qcmult_pos_pos|].
  replace (/ b * (a * b)) with a by (field; auto).
  replace (/ a * (a * b)) with b by (field; auto).
  exact Hab.
Qed.

Lemma Qcinv_lt_antitone (a b : scalar) : 0 < a → a < b → / b < / a.
Proof.
  intros Ha Hab.
  assert (Hb : 0 < b) by (eapply Qclt_trans; eauto).
  pose proof (Qc_pos_nonzero a Ha). pose proof (Qc_pos_nonzero b Hb).
  apply (Qcmult_lt_mono_pos_r _ _ (a * b)); [by apply Qcmult_pos_pos|].
  replace (/ b * (a * b)) with a by (field; auto).
  replace (/ a * (a * b)) with b by (field; auto).
  exact Hab.
Qed.

(** ** The value of [BitWidthParameter.forward] *)

Lemma BitWidthParameter_forward_run
    (abs : scalar → scalar) (m : BitWidthParameter.t) :
  BitWidthParameter.forward abs m
  = Ok (restrict_call (BitWidthParameter.restrict_bit_width_impl m)
          (abs (BitWidthParameter.bit_width_offset m)
           + BitWidthParameter.bit_width_base m),
        m).
Proof. reflexivity. Qed.


(** ** The default policy is monotonic *)

Lemma Qc_of_Z_le (n k : Z) : (n ≤ k)%Z → Qc_of_Z n ≤ Qc_of_Z k.
Proof. apply Z2Qc_inj_le. Qed.

Lemma round_half_even_cases (x : scalar) :
  let f := Qfloor x in
  let d := x - Qc_of_Z f in
  (d < Q2Qc (1 # 2) ∧ round_half_even x = Qc_of_Z f)
  ∨ (Q2Qc (1 # 2) ≤ d ∧ round_half_even x = Qc_of_Z (f + 1))
  ∨ (d = Q2Qc (1 # 2) ∧ round_half_even x = Qc_of_Z f).
Proof.
  intros f d. unfold round_half_even. fold f. fold d.
  destruct (decide (d < Q2Qc (1 # 2))) as [Hlt|Hnlt]; [by left|].
  apply Qcnot_lt_le in Hnlt.
  destruct (decide (Q2Qc (1 # 2) < d)) as [Hgt|Hngt]; [right; by left|].
  apply Qcnot_lt_le in Hngt.
  destruct (Z.even f); [|right; by left].
  right; right. split; [by apply Qcle_antisym|reflexivity].
Qed.

Lemma round_half_even_monotone : monotone round_half_even.
Proof.
  intros x y Hxy.
  assert (Hf : (Qfloor x ≤ Qfloor y)%Z) by (by apply Qfloor_resp_le).
  destruct (Z_le_lt_eq_dec _ _ Hf) as [Hlt|Heq].
  - (* the floors differ: the images are separated by an integer *)
    apply Qcle_trans with (Qc_of_Z (Qfloor x + 1)).
    + destruct (round_half_even_cases x) as [[_ ->]|[[_ ->]|[_ ->]]];
        try apply Qcle_refl; apply Qc_of_Z_le; lia.
    + apply Qcle_trans with (Qc_of_Z (Qfloor y)); [apply Qc_of_Z_le; lia|].
      destruct (round_half_even_cases y) as [[_ ->]|[[_ ->]|[_ ->]]];
        try apply Qcle_refl; apply Qc_of_Z_le; lia.
  - (* same floor: compare the fractional parts *)
    assert (Hd : x - Qc_of_Z (Qfloor x) ≤ y - Qc_of_Z (Qfloor y)).
    { rewrite <- Heq. by apply Qcplus_le_mono_r. }
    destruct (round_half_even_cases y) as [[Hy ->]|[[Hy ->]|[Hy Hry]]].
    + destruct (round_half_even_cases x) as [[Hx ->]|[[Hx ->]|[Hx ->]]].
      * rewrite Heq. apply Qcle_refl.
      * exfalso. apply (Qclt_not_le _ _ Hy).
        eapply Qcle_trans; [exact Hx|exact Hd].
      * rewrite Heq. apply Qcle_refl.
    + destruct (round_half_even_cases x) as [[_ ->]|[[_ ->]|[_ ->]]];
        apply Qc_of_Z_le; lia.
    + destruct (round_half_even_cases x) as [[Hx ->]|[[Hx Hrx]|[Hx ->]]].
      * rewrite Hry, Heq. apply Qcle_refl.
      * assert (Hdx : x - Qc_of_Z (Qfloor x) = Q2Qc (1 # 2)).
        { apply Qcle_antisym; [|exact Hx]. by rewrite <- Hy. }
        assert (Hxy' : x = y).
        { apply (Qcplus_inj_l (- Qc_of_Z (Qfloor x))).
          unfold Qcminus in Hdx, Hy. rewrite Hdx, Heq. by rewrite Hy. }
        subst y. apply Qcle_refl.
      * rewrite Hry, Heq. apply Qcle_refl.
Qed.


(** ** Checkpoint restore *)

Lemma remove_first_elem (x : string) (l : list string) :
  x ∈ l →
  ∃ l1 l2,
    l = l1 ++ x :: l2 ∧ (x ∉ l1) ∧ remove_first x l = Some (l1 ++ l2).
Proof.
  induction l as [|y l IH]; intros Hin.
  - by apply elem_of_nil in Hin.
  - cbn. destruct (decide (x = y)) as [->|Hne].
    + exists [], l. repeat split. apply not_elem_of_nil.
    + apply elem_of_cons in Hin as [Heq|Hin]; [contradiction|].
      destruct (IH Hin) as (l1 & l2 & -> & Hnot & ->).
      exists (y :: l1), l2. repeat split.
      intros [Heq|Hin']%elem_of_cons; [contradiction|by apply Hnot].
Qed.

Ltac suppression_step :=
  cbn;
  match goal with
  | |- context [?flag && list_contains ?l ?k] =>
      destruct flag; cbn [andb]; [|reflexivity];
      unfold list_contains, list_remove;
      destruct (decide (k ∈ l)) as [Hin|Hnot];
      [ rewrite !bool_decide_eq_true_2 by exact Hin;
        destruct (remove_first_elem k l Hin) as (l1 & l2 & _ & _ & Hrm);
        cbn; rewrite Hrm; reflexivity
      | rewrite !bool_decide_eq_false_2 by exact Hnot; reflexivity ]
  end.

Ltac hook_run :=
  let st := fresh "st" in
  let Hsaved := fresh "Hsaved" in
  intros st;
  unfold BitWidthParameter._load_from_state_dict,
    RemoveBitwidthParameter._load_from_state_dict,
    store_at_delegation, store_after_suppression;
  unfold mbind, Py_bind, mret, Py_ret, getattr, modify;
  cbn;
  match goal with
  | |- context [?ov && dict_contains ?d ?k] =>
      destruct ov; cbn [andb];
      [ unfold dict_contains, dict_delitem;
        destruct (d !! k) eqn:Hsaved;
        [ rewrite !bool_decide_eq_true_2 by (by eexists);
          cbn; rewrite Hsaved
        | rewrite !bool_decide_eq_false_2 by (by intros [? ?]) ]
      | ]
  end;
  suppression_step.

Lemma BitWidthParameter_load_run
    (flag : bool)
    (load : string → bool → load_store BitWidthParameter.t
            → load_store BitWidthParameter.t)
    (prefix : string) (strict : bool) :
  ∀ st,
    BitWidthParameter._load_from_state_dict flag load prefix strict st
    = Ok (tt,
          store_after_suppression flag (prefix +:+ "bit_width_offset")
            (load prefix strict
               (store_at_delegation
                  (BitWidthParameter.override_pretrained (self st))
                  (prefix +:+ "bit_width_offset") st))).
Proof. hook_run. Qed.

Lemma RemoveBitwidthParameter_load_run
    (flag : bool)
    (load : string → bool → load_store RemoveBitwidthParameter.t
            → load_store RemoveBitwidthParameter.t)
    (prefix : string) (strict : bool) :
  ∀ st,
    RemoveBitwidthParameter._load_from_state_dict flag load prefix strict st
    = Ok (tt,
          store_after_suppression flag (prefix +:+ "bit_width_coeff")
            (load prefix strict
               (store_at_delegation
                  (RemoveBitwidthParameter.override_pretrained (self st))
                  (prefix +:+ "bit_width_coeff") st))).
Proof. hook_run. Qed.

Lemma store_after_suppression_frame {M} (flag : bool) (key : string)
    (st : load_store M) :
  let st' := store_after_suppression flag key st in
  self st' = self st ∧ state_dict st' = state_dict st
  ∧ unexpected_keys st' = unexpected_keys st
  ∧ error_msgs st' = error_msgs st.
Proof.
  unfold store_after_suppression.
  destruct (flag && list_contains (missing_keys st) key); cbn; auto.
Qed.

Lemma store_after_suppression_off {M} (key : string) (st : load_store M) :
  missing_keys (store_after_suppression false key st) = missing_keys st.
Proof. reflexivity. Qed.

Lemma store_after_suppression_absent {M} (flag : bool) (key : string)
    (st : load_store M) :
  key ∉ missing_keys st →
  missing_keys (store_after_suppression flag key st) = missing_keys st.
Proof.
  intros Hnot. unfold store_after_suppression, list_contains.
  rewrite bool_decide_eq_false_2 by exact Hnot.
  by rewrite andb_false_r.
Qed.

Lemma store_after_suppression_on {M} (key : string) (st : load_store M) :
  key ∈ missing_keys st →
  ∃ l1 l2, missing_keys st = l1 ++ key :: l2 ∧ (key ∉ l1)
         ∧ missing_keys (store_after_suppression true key st) = l1 ++ l2.
Proof.
  intros Hin. unfold store_after_suppression, list_contains.
  rewrite bool_decide_eq_true_2 by exact Hin. cbn.
  destruct (remove_first_elem key _ Hin) as (l1 & l2 & Hl & Hnot & Hrm).
  exists l1, l2. rewrite Hrm. auto.
Qed.

Lemma suppresses_missing_key_of_run {M} (flag : bool) (override : M → bool)
    (key : string) (load : load_store M → load_store M)
    (hook : Py (load_store M) unit) :
  (∀ st, hook st
         = Ok (tt, store_after_suppression flag key
                     (load (store_at_delegation (override (self st)) key st))))
  → suppresses_missing_key flag override key load hook.
Proof.
  intros Hrun st delegated. eexists. split; [apply Hrun|]. fold delegated.
  destruct (store_after_suppression_frame flag key delegated)
    as (Hself & Hdict & Hunexp & Herr).
  repeat (split; [assumption|]).
  split; [|split; [|split]].
  - intros -> Hin. by apply store_after_suppression_on.
  - intros -> Hnodup.
    destruct (decide (key ∈ missing_keys delegated)) as [Hin|Hnot].
    + destruct (store_after_suppression_on key delegated Hin)
        as (l1 & l2 & Hl & Hnot1 & ->).
      rewrite Hl in Hnodup. apply NoDup_app in Hnodup as (_ & Hdisj & Hnd2).
      apply NoDup_cons in Hnd2 as [Hnot2 _].
      intros [Hin1|Hin2]%elem_of_app; contradiction.
    + by rewrite store_after_suppression_absent.
  - intros ->. apply store_after_suppression_off.
  - apply store_after_suppression_absent.
Qed.

(** C7: in the restore hook of both modules, once the base class has run:
    with the ignore-missing-keys flag set and the parameter's key reported
    missing, the key's first occurrence is removed from the list (and the
    key is gone from a list without repetitions); with the flag unset the
    list is left as the base class produced it. *)
Theorem load_suppresses_missing_key
    (flag : bool)
    (load_offset : string → bool → load_store BitWidthParameter.t
                   → load_store BitWidthParameter.t)
    (load_coeff : string → bool → load_store RemoveBitwidthParameter.t
                  → load_store RemoveBitwidthParameter.t)
    (prefix : string) (strict : bool) :
  suppresses_missing_key flag BitWidthParameter.override_pretrained
    (prefix +:+ "bit_width_offset") (load_offset prefix strict)
    (BitWidthParameter._load_from_state_dict flag load_offset prefix strict)
  ∧ suppresses_missing_key flag RemoveBitwidthParameter.override_pretrained
      (prefix +:+ "bit_width_coeff") (load_coeff prefix strict)
      (RemoveBitwidthParameter._load_from_state_dict flag load_coeff
         prefix strict).
Proof.
  split; apply suppresses_missing_key_of_run.
  - apply BitWidthParameter_load_run.
  - apply RemoveBitwidthParameter_load_run.
Qed.

Lemma store_at_delegation_override {M} (key : string) (st : load_store M) :
  is_Some (state_dict st !! key) →
  store_at_delegation true key st
  = set_state_dict (delete key (state_dict st)) st.
Proof.
  intros Hsaved. unfold store_at_delegation, dict_contains.
  by rewrite bool_decide_eq_true_2.
Qed.

Lemma store_at_delegation_skip {M} (override : bool) (key : string)
    (st : load_store M) :
  override = false ∨ state_dict st !! key = None →
  store_at_delegation override key st = st.
Proof.
  intros [->|Hnone]; [reflexivity|].
  unfold store_at_delegation, dict_contains.
  rewrite bool_decide_eq_false_2; [by rewrite andb_false_r|].
  rewrite Hnone. by intros [? ?].
Qed.

Lemma discards_saved_value_of_run {M} (flag : bool) (param : M → scalar)
    (override : M → bool) (key : string) (load : load_store M → load_store M)
    (hook : Py (load_store M) unit) :
  (∀ st, state_dict st !! key = None → param (self (load st)) = param (self st))
  → (∀ st, state_dict (load st) = state_dict st)
  → (∀ st, hook st
           = Ok (tt, store_after_suppression flag key
                       (load (store_at_delegation (override (self st)) key st))))
  → discards_saved_value param override key load hook.
Proof.
  intros Habsent Hreads Hrun st. eexists. split; [apply Hrun|].
  set (delegated := load (store_at_delegation (override (self st)) key st)).
  destruct (store_after_suppression_frame flag key delegated)
    as (Hself & Hdict & _).
  cbv zeta in Hself, Hdict. rewrite Hself, Hdict. subst delegated.
  split.
  - intros Hov Hsaved. rewrite Hov.
    rewrite store_at_delegation_override by exact Hsaved.
    rewrite Hreads. cbn. repeat split.
    + apply lookup_delete_eq.
    + rewrite Habsent; [reflexivity|]. cbn. apply lookup_delete_eq.
  - intros Hskip. rewrite store_at_delegation_skip by exact Hskip.
    split; [reflexivity|apply Hreads].
Qed.

Section Restore.
Variable flag : bool.
Variable load_offset :
  string → bool → load_store BitWidthParameter.t
  → load_store BitWidthParameter.t.
Variable load_coeff :
  string → bool → load_store RemoveBitwidthParameter.t
  → load_store RemoveBitwidthParameter.t.

(** The base class leaves a parameter alone when the mapping holds no
    value for it, and it only reads the mapping. *)
Hypothesis load_offset_absent : ∀ prefix strict st,
  state_dict st !! (prefix +:+ "bit_width_offset") = None →
  BitWidthParameter.bit_width_offset (self (load_offset prefix strict st))
  = BitWidthParameter.bit_width_offset (self st).
Hypothesis load_offset_reads : ∀ prefix strict st,
  state_dict (load_offset prefix strict st) = state_dict st.
Hypothesis load_coeff_absent : ∀ prefix strict st,
  state_dict st !! (prefix +:+ "bit_width_coeff") = None →
  RemoveBitwidthParameter.bit_width_coeff
    (self (load_coeff prefix strict st))
  = RemoveBitwidthParameter.bit_width_coeff (self st).
Hypothesis load_coeff_reads : ∀ prefix strict st,
  state_dict (load_coeff prefix strict st) = state_dict st.

(** C4: in the restore hook of both modules, with [override_pretrained]
    set and the parameter's key saved in the mapping, the key is deleted
    before the base class runs, so the parameter keeps its value; with
    [override_pretrained] unset or the key not saved, nothing is
    deleted. *)
Theorem load_discards_saved_value (prefix : string) (strict : bool) :
  discards_saved_value BitWidthParameter.bit_width_offset
    BitWidthParameter.override_pretrained
    (prefix +:+ "bit_width_offset") (load_offset prefix strict)
    (BitWidthParameter._load_from_state_dict flag load_offset prefix strict)
  ∧ discards_saved_value RemoveBitwidthParameter.bit_width_coeff
      RemoveBitwidthParameter.override_pretrained
      (prefix +:+ "bit_width_coeff") (load_coeff prefix strict)
      (RemoveBitwidthParameter._load_from_state_dict flag load_coeff
         prefix strict).
Proof.
  split; eapply discards_saved_value_of_run.
  - apply load_offset_absent.
  - apply load_offset_reads.
  - apply BitWidthParameter_load_run.
  - apply load_coeff_absent.
  - apply load_coeff_reads.
  - apply RemoveBitwidthParameter_load_run.
Qed.
End Restore.

(** The hook of [torch.nn.Module] meets both assumptions. *)
Lemma Module_load_absent {M} (name : string) (param : M → scalar)
    (set_param : scalar → M → M) (prefix : string) (strict : bool)
    (st : load_store M) :
  state_dict st !! (prefix +:+ name) = None →
  param (self (Module_load_from_state_dict name set_param prefix strict st))
  = param (self st).
Proof.
  intros Hnone. unfold Module_load_from_state_dict. rewrite Hnone.
  by destruct strict.
Qed.

Lemma Module_load_reads {M} (name : string) (set_param : scalar → M → M)
    (prefix : string) (strict : bool) (st : load_store M) :
  state_dict (Module_load_from_state_dict name set_param prefix strict st)
  = state_dict st.
Proof.
  unfold Module_load_from_state_dict.
  destruct (state_dict st !! (prefix +:+ name)); [reflexivity|].
  by destruct strict.
Qed.

(** Without the override the same checkpoint replaces the offset. *)
Example load_without_override_takes_saved_value :
  let m := {| BitWidthParameter.bit_width_offset := Q2Qc 6;
              BitWidthParameter.bit_width_base := Q2Qc 2;
              BitWidthParameter.restrict_bit_width_impl :=
                IntRestrictValue_RoundSte;
              BitWidthParameter.override_pretrained := false |} in
  ∃ st',
    BitWidthParameter._load_from_state_dict true
      (Module_load_from_state_dict "bit_width_offset"
         BitWidthParameter.set_bit_width_offset)
      "quant." true (set_self m checkpoint) = Ok (tt, st')
    ∧ state_dict st' !! "quant.bit_width_offset" = Some (Q2Qc 5)
    ∧ BitWidthParameter.bit_width_offset (self st') = Q2Qc 5.
Proof.
  intros m. eexists. split; [apply BitWidthParameter_load_run|].
  split; reflexivity.
Qed.

Lemma load_discards_saved_value_witness :
  ∃ st',
    BitWidthParameter._load_from_state_dict true
      (Module_load_from_state_dict "bit_width_offset"
         BitWidthParameter.set_bit_width_offset)
      "quant." true checkpoint = Ok (tt, st')
    ∧ state_dict st' !! "quant.bit_width_offset" = None
    ∧ BitWidthParameter.bit_width_offset (self st') = Q2Qc 6.
Proof.
  destruct (load_discards_saved_value true
              (Module_load_from_state_dict "bit_width_offset"
                 BitWidthParameter.set_bit_width_offset)
              (Module_load_from_state_dict "bit_width_coeff"
                 RemoveBitwidthParameter.set_bit_width_coeff)
              (Module_load_absent _ _ _)
              (Module_load_reads _ _)
              (Module_load_absent _ _ _)
              (Module_load_reads _ _)
              "quant." true) as [Hoffset _].
  destruct (Hoffset checkpoint) as (st' & Hrun & Hoverride & _).
  exists st'. split; [exact Hrun|].
  destruct Hoverride as (_ & _ & Hgone & Hkept).
  - reflexivity.
  - exists (Q2Qc 5). apply lookup_singleton_eq.
  - split; [exact Hgone|exact Hkept].
Defined.

(** * Further properties *)

(** ** Further properties of the bit-width modules *)

(** X8: [forward] of [BitWidthParameter] sees the offset only through its
    magnitude when [abs_binary_sign_grad] is the absolute value: offsets
    of equal magnitude give the same output, and under a monotonic policy
    a larger magnitude never gives a smaller output. *)
Theorem BitWidthParameter_forward_offset_magnitude
    (abs : scalar → scalar) (m : BitWidthParameter.t) (v1 v2 : scalar) :
  (∀ x, abs x = Qcabs x) →
  ∃ w1 w2,
    BitWidthParameter.forward abs
      (BitWidthParameter.set_bit_width_offset v1 m)
    = Ok (w1, BitWidthParameter.set_bit_width_offset v1 m)
    ∧ BitWidthParameter.forward abs
        (BitWidthParameter.set_bit_width_offset v2 m)
      = Ok (w2, BitWidthParameter.set_bit_width_offset v2 m)
    ∧ (Qcabs v1 = Qcabs v2 → w1 = w2)
    ∧ (v2 = - v1 → w1 = w2)
    ∧ (monotone
         (restrict_call (BitWidthParameter.restrict_bit_width_impl m)) →
       Qcabs v1 ≤ Qcabs v2 → w1 ≤ w2).
Proof.
  intros Habs. eexists. eexists.
  split; [apply BitWidthParameter_forward_run|].
  split; [apply BitWidthParameter_forward_run|].
  cbn. rewrite !Habs. split; [|split].
  - by intros ->.
  - intros ->. by rewrite Qcabs_opp.
  - intros Hmono Hle. apply Hmono. by apply Qcplus_le_mono_r.
Qed.

Lemma BitWidthParameter_forward_offset_magnitude_witness :
  (∀ x, abs_binary_sign_grad x = Qcabs x)
  ∧ ∃ w,
      BitWidthParameter.forward abs_binary_sign_grad
        (BitWidthParameter.set_bit_width_offset (Q2Qc 6) fresh_module)
      = Ok (w, BitWidthParameter.set_bit_width_offset (Q2Qc 6) fresh_module)
      ∧ BitWidthParameter.forward abs_binary_sign_grad
          (BitWidthParameter.set_bit_width_offset (Q2Qc (-6)) fresh_module)
        = Ok (w, BitWidthParameter.set_bit_width_offset (Q2Qc (-6))
                   fresh_module).
Proof.
  assert (Habs : ∀ x, abs_binary_sign_grad x = Qcabs x) by reflexivity.
  split; [exact Habs|].
  destruct (BitWidthParameter_forward_offset_magnitude abs_binary_sign_grad
              fresh_module (Q2Qc 6) (Q2Qc (-6)) Habs)
    as (w1 & w2 & Hf1 & Hf2 & Heq & _).
  exists w1. split; [exact Hf1|].
  rewrite Hf2. rewrite (Heq ltac:(qc_eq)). reflexivity.
Defined.

(** X9: the error of [RemoveBitwidthParameter] for a negative bit width
    does not show the value: the message has no placeholder for the
    argument handed to [format], so every negative input, with whatever
    other arguments, is rejected with the same text. *)
Theorem RemoveBitwidthParameter_init_message_fixed
    (b1 b2 : Z) (o1 o2 : bool) (eps1 eps2 rz1 rz2 : scalar) :
  (b1 < 0)%Z → (b2 < 0)%Z →
  RemoveBitwidthParameter.__init__ b1 o1 eps1 rz1
  = Raise (RuntimeError "Bit width to clamp has to be >= 0.")
  ∧ RemoveBitwidthParameter.__init__ b1 o1 eps1 rz1
    = RemoveBitwidthParameter.__init__ b2 o2 eps2 rz2.
Proof.
  intros H1 H2.
  by rewrite !RemoveBitwidthParameter_init_negative.
Qed.

Lemma RemoveBitwidthParameter_init_message_fixed_witness :
  (-1 < 0)%Z ∧ (-7 < 0)%Z
  ∧ RemoveBitwidthParameter.__init__ (-1) false NON_ZERO_EPSILON
      REMOVE_ZERO_BIT_WIDTH
    = RemoveBitwidthParameter.__init__ (-7) true 0 0.
Proof.
  assert (H1 : (-1 < 0)%Z) by lia.
  assert (H7 : (-7 < 0)%Z) by lia.
  repeat (split; [assumption|]).
  exact (proj2 (RemoveBitwidthParameter_init_message_fixed (-1) (-7)
                  false true NON_ZERO_EPSILON 0 REMOVE_ZERO_BIT_WIDTH 0
                  H1 H7)).
Defined.

(** * IEEE arithmetic *)

(** ** Rounding *)

Lemma Qc_of_Z_lt (n k : Z) : (n < k)%Z → Qc_of_Z n < Qc_of_Z k.
Proof. apply Z2Qc_inj_lt. Qed.

Lemma round_half_even_rne (x : Qc) : round_half_even x = Qc_of_Z (rne x).
Proof.
  unfold round_half_even, rne.
  repeat (destruct (decide _)); try reflexivity.
  by destruct (Z.even (Qfloor x)).
Qed.

Lemma rne_monotone (x y : Qc) : x ≤ y → (rne x ≤ rne y)%Z.
Proof.
  intros Hxy. apply Z2Qc_inj_le. rewrite <- !round_half_even_rne.
  by apply round_half_even_monotone.
Qed.

Lemma rne_integer (n : Z) : rne (Qc_of_Z n) = n.
Proof.
  unfold rne. cbn [this Qc_of_Z]. rewrite Qfloor_Z.
  replace (Qc_of_Z n - Qc_of_Z n) with (Q2Qc 0) by ring.
  destruct (decide (Q2Qc 0 < Q2Qc (1 # 2))) as [_|Hn]; [reflexivity|].
  exfalso. apply Hn. qc_cmp.
Qed.

Lemma Qc_of_Z_pow2_pos (s : Z) : (0 ≤ s)%Z → 0 < Qc_of_Z (2 ^ s).
Proof.
  intros Hs. rewrite <- Z2Qc_inj_0. apply Qc_of_Z_lt. by apply Z.pow_pos_nonneg.
Qed.

Lemma Qcdiv_le_mono_pos (x y d : Qc) : 0 < d → x ≤ y → x / d ≤ y / d.
Proof.
  intros Hd Hxy. unfold Qcdiv. apply Qcmult_le_mono_nonneg_r; [|exact Hxy].
  apply Qclt_le_weak. by apply Qcinv_pos.
Qed.

Lemma Qfloor_lower (x : Qc) : Qc_of_Z (Qfloor x) ≤ x.
Proof. unfold Qcle. cbn. apply Qfloor_le. Qed.

Lemma Qfloor_upper (x : Qc) : x < Qc_of_Z (Qfloor x + 1).
Proof. unfold Qclt. cbn. apply Qlt_floor. Qed.

Lemma Qfloor_mono (x y : Qc) : x ≤ y → (Qfloor x ≤ Qfloor y)%Z.
Proof. intros H. by apply Qfloor_resp_le. Qed.

Lemma Qfloor_nonneg (x : Qc) : 0 ≤ x → (0 ≤ Qfloor x)%Z.
Proof.
  intros Hx. change 0%Z with (Qfloor (Q2Qc 0)). by apply Qfloor_mono.
Qed.

(** A quotient of powers of two with the larger exponent on top. *)
Lemma pow2_quotient (a s : Z) :
  (0 ≤ s ≤ a)%Z → Qc_of_Z (2 ^ a) / Qc_of_Z (2 ^ s) = Qc_of_Z (2 ^ (a - s)).
Proof.
  intros [Hs Ha].
  replace (2 ^ a)%Z with (2 ^ (a - s) * 2 ^ s)%Z
    by (rewrite <- Z.pow_add_r by lia; f_equal; lia).
  rewrite Z2Qc_inj_mul. field. apply Qc_pos_nonzero. by apply Qc_of_Z_pow2_pos.
Qed.

Lemma round_units_monotone (p : Z) (x y : Qc) :
  (1 ≤ p)%Z → 0 ≤ x → x ≤ y → (round_units p x ≤ round_units p y)%Z.
Proof.
  intros Hp Hx Hxy. unfold round_units.
  set (nx := Qfloor x). set (ny := Qfloor y).
  assert (Hnx : (0 ≤ nx)%Z) by (by apply Qfloor_nonneg).
  assert (Hn : (nx ≤ ny)%Z) by (by apply Qfloor_mono).
  assert (Hl : (Z.log2 nx ≤ Z.log2 ny)%Z) by (by apply Z.log2_le_mono).
  set (sx := Z.max (Z.log2 nx - p + 1) 0).
  set (sy := Z.max (Z.log2 ny - p + 1) 0).
  assert (Hsx : (0 ≤ sx)%Z) by lia.
  assert (Hs : (sx ≤ sy)%Z) by lia.
  destruct (Z.eq_dec sx sy) as [Heq|Hne].
  - rewrite <- Heq. apply Z.mul_le_mono_nonneg_r; [by apply Z.pow_nonneg|].
    apply rne_monotone. apply Qcdiv_le_mono_pos; [|exact Hxy].
    by apply Qc_of_Z_pow2_pos.
  - (* the exponents differ: a power of two lies between [x] and [y] *)
    set (L := Z.log2 ny).
    assert (HsyL : sy = (L - p + 1)%Z) by lia.
    assert (HLx : (Z.log2 nx < L)%Z) by lia.
    assert (Hny : (0 < ny)%Z).
    { destruct (Z.le_gt_cases ny 0%Z) as [H0|H0]; [|lia].
      pose proof (Z.log2_nonpos ny H0). pose proof (Z.log2_nonneg nx).
      subst L. lia. }
    assert (HxL : x ≤ Qc_of_Z (2 ^ L)).
    { apply Qclt_le_weak. eapply Qclt_le_trans; [apply Qfloor_upper|].
      apply Qc_of_Z_le. fold nx.
      destruct (Z.eq_dec nx 0%Z) as [->|H0].
      - pose proof (Z.pow_pos_nonneg 2 L ltac:(lia) ltac:(lia)). lia.
      - assert (nx < 2 ^ L)%Z by (apply Z.log2_lt_pow2; lia). lia. }
    assert (HyL : Qc_of_Z (2 ^ L) ≤ y).
    { eapply Qcle_trans; [|apply Qfloor_lower]. apply Qc_of_Z_le. fold ny.
      apply Z.log2_le_pow2; [exact Hny|]. subst L. lia. }
    apply Z.le_trans with (2 ^ L)%Z.
    + replace (2 ^ L)%Z with (rne (Qc_of_Z (2 ^ L) / Qc_of_Z (2 ^ sx)) * 2 ^ sx)%Z.
      * apply Z.mul_le_mono_nonneg_r; [by apply Z.pow_nonneg|].
        apply rne_monotone. apply Qcdiv_le_mono_pos; [|exact HxL].
        by apply Qc_of_Z_pow2_pos.
      * rewrite pow2_quotient by lia. rewrite rne_integer.
        rewrite <- Z.pow_add_r by lia. f_equal. lia.
    + replace (2 ^ L)%Z with (rne (Qc_of_Z (2 ^ L) / Qc_of_Z (2 ^ sy)) * 2 ^ sy)%Z.
      * apply Z.mul_le_mono_nonneg_r; [by apply Z.pow_nonneg|].
        apply rne_monotone. apply Qcdiv_le_mono_pos; [|exact HyL].
        apply Qc_of_Z_pow2_pos. lia.
      * rewrite pow2_quotient by lia. rewrite rne_integer.
        rewrite <- Z.pow_add_r by lia. f_equal. lia.
Qed.

Lemma binary32_well_formed : well_formed binary32.
Proof. unfold well_formed, emin; cbn; lia. Qed.
Lemma binary64_well_formed : well_formed binary64.
Proof. unfold well_formed, emin; cbn; lia. Qed.

Lemma units_per_one_pos (fmt : binary_format) :
  well_formed fmt → 0 < Qc_of_Z (units_per_one fmt).
Proof. intros (_ & He & _). unfold units_per_one. apply Qc_of_Z_pow2_pos. lia. Qed.

Lemma rne_zero : rne 0 = 0%Z.
Proof. replace (Q2Qc 0) with (Qc_of_Z 0) by qc_eq. apply rne_integer. Qed.

Lemma round_units_zero (p : Z) : round_units p 0 = 0%Z.
Proof.
  unfold round_units. replace (Qfloor (Q2Qc 0)) with 0%Z by reflexivity.
  replace (0 / Qc_of_Z (2 ^ Z.max (Z.log2 0 - p + 1) 0)) with (Q2Qc 0)
    by (unfold Qcdiv; ring).
  by rewrite rne_zero.
Qed.

Lemma round_units_nonneg (p : Z) (x : Qc) :
  (1 ≤ p)%Z → 0 ≤ x → (0 ≤ round_units p x)%Z.
Proof.
  intros Hp Hx. rewrite <- (round_units_zero p).
  by apply round_units_monotone.
Qed.

Lemma f_le_refl (x : float) : x ≠ NaN → f_le x x.
Proof. destruct x; cbn; intros; first [done | apply Qcle_refl]. Qed.

Lemma f_le_trans (x y z : float) : f_le x y → f_le y z → f_le x z.
Proof.
  destruct x, y, z; cbn; try done. apply Qcle_trans.
Qed.

Lemma f_opp_le (x y : float) : f_le x y → f_le (f_opp y) (f_opp x).
Proof.
  destruct x, y; cbn; try done. apply Qcopp_le_compat.
Qed.

Lemma rnd_nonneg_monotone (fmt : binary_format) (q1 q2 : Qc) :
  well_formed fmt → 0 ≤ q1 → q1 ≤ q2 →
  f_le (rnd_nonneg fmt q1) (rnd_nonneg fmt q2).
Proof.
  intros Hwf H1 H12. pose proof (units_per_one_pos fmt Hwf) as Hu.
  destruct Hwf as (Hp & _ & _). unfold rnd_nonneg.
  assert (Hmono : (round_units (prec fmt) (q1 * Qc_of_Z (units_per_one fmt))
                   ≤ round_units (prec fmt) (q2 * Qc_of_Z (units_per_one fmt)))%Z).
  { apply round_units_monotone; [exact Hp| |].
    - apply Qcmult_nonneg_nonneg; [exact H1|by apply Qclt_le_weak].
    - apply Qcmult_le_mono_nonneg_r; [by apply Qclt_le_weak|exact H12]. }
  destruct (Z.leb_spec (overflow_units fmt)
              (round_units (prec fmt) (q2 * Qc_of_Z (units_per_one fmt))));
    destruct (Z.leb_spec (overflow_units fmt)
                (round_units (prec fmt) (q1 * Qc_of_Z (units_per_one fmt))));
    cbn; try done; try lia.
  apply Qcdiv_le_mono_pos; [exact Hu|]. by apply Qc_of_Z_le.
Qed.

Lemma rnd_nonneg_zero (fmt : binary_format) :
  well_formed fmt → rnd_nonneg fmt 0 = Fin 0.
Proof.
  intros (Hp & He & Hm). unfold rnd_nonneg.
  rewrite Qcmult_0_l, round_units_zero.
  destruct (Z.leb_spec (overflow_units fmt) 0) as [Hle|_].
  - unfold overflow_units in Hle.
    pose proof (Z.pow_pos_nonneg 2 (emax fmt - emin fmt) ltac:(lia)
                  ltac:(lia)). lia.
  - f_equal. unfold Qcdiv. replace (Qc_of_Z 0) with (Q2Qc 0) by qc_eq. ring.
Qed.

Lemma rnd_zero (fmt : binary_format) : well_formed fmt → rnd fmt 0 = Fin 0.
Proof.
  intros Hwf. unfold rnd.
  destruct (decide (0 ≤ 0)) as [_|Hn]; [by apply rnd_nonneg_zero|].
  exfalso. apply Hn. apply Qcle_refl.
Qed.

Lemma rnd_nonneg_sign (fmt : binary_format) (q : Qc) :
  well_formed fmt → 0 ≤ q → f_le (Fin 0) (rnd_nonneg fmt q).
Proof.
  intros Hwf Hq. rewrite <- (rnd_nonneg_zero fmt Hwf).
  apply rnd_nonneg_monotone; [exact Hwf|apply Qcle_refl|exact Hq].
Qed.

Lemma Qcopp_nonneg (q : Qc) : ¬ 0 ≤ q → 0 ≤ - q.
Proof.
  intros Hn. apply Qcnot_le_lt in Hn. apply Qclt_le_weak in Hn.
  apply Qcopp_le_compat in Hn. by replace (- 0) with (Q2Qc 0) in Hn by ring.
Qed.

(** Rounding keeps the order. *)
Lemma rnd_monotone (fmt : binary_format) (q1 q2 : Qc) :
  well_formed fmt → q1 ≤ q2 → f_le (rnd fmt q1) (rnd fmt q2).
Proof.
  intros Hwf H12. unfold rnd.
  destruct (decide (0 ≤ q1)) as [H1|H1]; destruct (decide (0 ≤ q2)) as [H2|H2].
  - by apply rnd_nonneg_monotone.
  - exfalso. apply H2. by apply Qcle_trans with q1.
  - apply f_le_trans with (Fin 0); [|by apply rnd_nonneg_sign].
    change (Fin 0) with (f_opp (Fin (- 0))).
    replace (- 0) with (Q2Qc 0) by ring.
    apply f_opp_le. apply rnd_nonneg_sign; [exact Hwf|by apply Qcopp_nonneg].
  - apply f_opp_le. apply rnd_nonneg_monotone;
      [exact Hwf|by apply Qcopp_nonneg|by apply Qcopp_le_compat].
Qed.

Lemma round_units_of_multiple (p u k : Z) :
  (0 ≤ Z.max (Z.log2 u - p + 1) 0)%Z →
  u = (k * 2 ^ Z.max (Z.log2 u - p + 1) 0)%Z →
  round_units p (Qc_of_Z u) = u.
Proof.
  intros Hs Hu. unfold round_units. cbn [this Qc_of_Z]. rewrite Qfloor_Z.
  set (s := Z.max (Z.log2 u - p + 1) 0) in *.
  replace (Qc_of_Z u / Qc_of_Z (2 ^ s)) with (Qc_of_Z k).
  - rewrite rne_integer. by rewrite <- Hu.
  - rewrite Hu at 1. rewrite Z2Qc_inj_mul. field.
    apply Qc_pos_nonzero. by apply Qc_of_Z_pow2_pos.
Qed.

(** The significand that rounding leaves has at most [p] bits, or is the
    power of two right above. *)
Lemma round_units_significand (p : Z) (x : Qc) :
  (1 ≤ p)%Z → 0 ≤ x →
  (0 ≤ rne (x / Qc_of_Z (2 ^ Z.max (Z.log2 (Qfloor x) - p + 1) 0)) ≤ 2 ^ p)%Z.
Proof.
  intros Hp Hx.
  set (n := Qfloor x). set (s := Z.max (Z.log2 n - p + 1) 0).
  assert (Hn : (0 ≤ n)%Z) by (by apply Qfloor_nonneg).
  assert (Hs : (0 ≤ s)%Z) by lia.
  pose proof (Qc_of_Z_pow2_pos s Hs) as Hpos.
  split.
  - rewrite <- rne_zero. apply rne_monotone.
    unfold Qcdiv. apply Qcmult_nonneg_nonneg; [exact Hx|].
    apply Qclt_le_weak. by apply Qcinv_pos.
  - set (L := Z.log2 n).
    assert (HL : (0 ≤ L)%Z) by apply Z.log2_nonneg.
    assert (Hx' : x ≤ Qc_of_Z (2 ^ (L + 1))).
    { apply Qclt_le_weak. eapply Qclt_le_trans; [apply Qfloor_upper|].
      apply Qc_of_Z_le. fold n.
      destruct (Z.eq_dec n 0%Z) as [H0|H0].
      - rewrite H0. pose proof (Z.pow_pos_nonneg 2 (L + 1) ltac:(lia) ltac:(lia)).
        lia.
      - assert (n < 2 ^ (L + 1))%Z by (apply Z.log2_lt_pow2; lia). lia. }
    assert (HsL : (s ≤ L + 1)%Z) by lia.
    apply Z.le_trans with (rne (Qc_of_Z (2 ^ (L + 1)) / Qc_of_Z (2 ^ s))).
    + apply rne_monotone. by apply Qcdiv_le_mono_pos.
    + rewrite pow2_quotient by lia. rewrite rne_integer.
      apply Z.pow_le_mono_r; lia.
Qed.

Lemma round_units_fixed (p : Z) (x : Qc) :
  (1 ≤ p)%Z → 0 ≤ x →
  round_units p (Qc_of_Z (round_units p x)) = round_units p x.
Proof.
  intros Hp Hx.
  destruct (round_units_significand p x Hp Hx) as [Hm0 Hmp].
  unfold round_units at 2 3.
  set (s := Z.max (Z.log2 (Qfloor x) - p + 1) 0) in *.
  set (m := rne (x / Qc_of_Z (2 ^ s))) in *.
  assert (Hs : (0 ≤ s)%Z) by lia.
  destruct (Z.eq_dec m 0%Z) as [H0|H0].
  - rewrite H0, Z.mul_0_l. replace (Qc_of_Z 0) with (Q2Qc 0) by qc_eq.
    apply round_units_zero.
  - destruct (Z.eq_dec m (2 ^ p)%Z) as [Hmax|Hlt].
    + rewrite Hmax, <- Z.pow_add_r by lia.
      apply (round_units_of_multiple p _ (2 ^ (p - 1))%Z);
        rewrite Z.log2_pow2 by lia; [lia|].
      rewrite <- Z.pow_add_r by lia. f_equal. lia.
    + assert (Hlog : Z.log2 (m * 2 ^ s) = (s + Z.log2 m)%Z)
        by (apply Z.log2_mul_pow2; lia).
      assert (Hlm : (Z.log2 m < p)%Z) by (apply Z.log2_lt_pow2; lia).
      pose proof (Z.log2_nonneg m) as Hlm0.
      set (s' := Z.max (Z.log2 (m * 2 ^ s) - p + 1) 0).
      apply (round_units_of_multiple p _ (m * 2 ^ (s - s'))%Z);
        fold s'; [lia|].
      rewrite <- Z.mul_assoc, <- Z.pow_add_r by lia. do 2 f_equal. lia.
Qed.

(** A rounded value is a number of the format: rounding it again changes
    nothing. *)
Lemma rnd_nonneg_fixed (fmt : binary_format) (q v : Qc) :
  well_formed fmt → 0 ≤ q →
  rnd_nonneg fmt q = Fin v → 0 ≤ v ∧ rnd_nonneg fmt v = Fin v.
Proof.
  intros Hwf Hq Hv. pose proof (units_per_one_pos fmt Hwf) as Hu.
  pose proof (rnd_nonneg_sign fmt q Hwf Hq) as Hsign.
  rewrite Hv in Hsign. cbn in Hsign. split; [exact Hsign|].
  destruct Hwf as (Hp & _ & _).
  unfold rnd_nonneg in Hv |- *.
  set (x := q * Qc_of_Z (units_per_one fmt)) in *.
  assert (Hx : 0 ≤ x).
  { apply Qcmult_nonneg_nonneg; [exact Hq|by apply Qclt_le_weak]. }
  destruct (Z.leb_spec (overflow_units fmt) (round_units (prec fmt) x))
    as [|Hlt]; [discriminate|].
  injection Hv as <-.
  replace (Qc_of_Z (round_units (prec fmt) x) / Qc_of_Z (units_per_one fmt)
           * Qc_of_Z (units_per_one fmt))
    with (Qc_of_Z (round_units (prec fmt) x))
    by (field; by apply Qc_pos_nonzero).
  rewrite round_units_fixed by assumption.
  destruct (Z.leb_spec (overflow_units fmt) (round_units (prec fmt) x));
    [lia|reflexivity].
Qed.

Lemma rnd_fixed (fmt : binary_format) (q v : Qc) :
  well_formed fmt → rnd fmt q = Fin v → rnd fmt v = Fin v.
Proof.
  intros Hwf. unfold rnd at 1.
  destruct (decide (0 ≤ q)) as [Hq|Hq]; intros Hv.
  - destruct (rnd_nonneg_fixed fmt q v Hwf Hq Hv) as [Hv0 Hfix].
    unfold rnd. by destruct (decide (0 ≤ v)).
  - destruct (rnd_nonneg fmt (- q)) as [w| | |] eqn:Hw; try discriminate.
    cbn in Hv. injection Hv as <-.
    destruct (rnd_nonneg_fixed fmt (- q) w Hwf (Qcopp_nonneg q Hq) Hw)
      as [Hw0 Hfix].
    unfold rnd. destruct (decide (0 ≤ - w)) as [Hneg|Hneg].
    + assert (w = 0) as ->.
      { apply Qcle_antisym; [|exact Hw0].
        apply Qcopp_le_compat in Hneg.
        rewrite Qcopp_involutive in Hneg.
        by replace (- 0) with (Q2Qc 0) in Hneg by ring. }
      replace (- 0) with (Q2Qc 0) by ring. by apply rnd_nonneg_zero.
    + rewrite Qcopp_involutive, Hfix. reflexivity.
Qed.

Lemma rnd_nonneg_below_huge (fmt : binary_format) (q v : Qc) :
  well_formed fmt → rnd_nonneg fmt q = Fin v → v < huge fmt.
Proof.
  intros Hwf. pose proof (units_per_one_pos fmt Hwf) as Hu.
  unfold rnd_nonneg, huge.
  destruct (Z.leb_spec (overflow_units fmt)
              (round_units (prec fmt) (q * Qc_of_Z (units_per_one fmt))))
    as [|Hlt]; [discriminate|].
  intros [= <-]. unfold Qcdiv.
  apply Qcmult_lt_mono_pos_r; [by apply Qcinv_pos|by apply Qc_of_Z_lt].
Qed.

Lemma rnd_nonneg_eq (fmt : binary_format) (q : Qc) :
  0 ≤ q → rnd fmt q = rnd_nonneg fmt q.
Proof. intros Hq. unfold rnd. by destruct (decide (0 ≤ q)). Qed.

Lemma rnd_sign (fmt : binary_format) (q : Qc) :
  well_formed fmt → 0 ≤ q → f_le (Fin 0) (rnd fmt q).
Proof.
  intros Hwf Hq. rewrite <- (rnd_zero fmt Hwf). by apply rnd_monotone.
Qed.

Lemma rnd_below_huge (fmt : binary_format) (q v : Qc) :
  well_formed fmt → 0 ≤ q → rnd fmt q = Fin v → 0 ≤ v ∧ v < huge fmt.
Proof.
  intros Hwf Hq Hv. pose proof (rnd_sign fmt q Hwf Hq) as Hs.
  rewrite Hv in Hs. split; [exact Hs|].
  rewrite rnd_nonneg_eq in Hv by exact Hq.
  by apply (rnd_nonneg_below_huge fmt q).
Qed.

(** Between two finite floats only finite floats lie. *)
Lemma f_le_between (x : float) (a b : Qc) :
  f_le (Fin a) x → f_le x (Fin b) → ∃ v, x = Fin v ∧ a ≤ v ∧ v ≤ b.
Proof. destruct x as [v| | |]; cbn; try done. intros; by exists v. Qed.

(** Integers of up to [prec] bits are numbers of the format. *)
Lemma rnd_integer (fmt : binary_format) (n : Z) :
  well_formed fmt → (0 ≤ n ≤ 2 ^ prec fmt)%Z →
  representable fmt (Qc_of_Z n).
Proof.
  intros (Hp & He & Hm) [Hn0 Hnp]. unfold representable.
  assert (Hq : 0 ≤ Qc_of_Z n).
  { rewrite <- Z2Qc_inj_0. by apply Qc_of_Z_le. }
  rewrite rnd_nonneg_eq by exact Hq. unfold rnd_nonneg, units_per_one.
  set (a := (- emin fmt)%Z). assert (Ha : (0 ≤ a)%Z) by lia.
  rewrite <- Z2Qc_inj_mul.
  assert (Hfix : round_units (prec fmt) (Qc_of_Z (n * 2 ^ a)) = (n * 2 ^ a)%Z).
  { destruct (Z.eq_dec n 0%Z) as [->|Hn].
    - rewrite Z.mul_0_l. replace (Qc_of_Z 0) with (Q2Qc 0) by qc_eq.
      apply round_units_zero.
    - destruct (Z.eq_dec n (2 ^ prec fmt)%Z) as [->|Hlt].
      + rewrite <- Z.pow_add_r by lia.
        apply (round_units_of_multiple _ _ (2 ^ (prec fmt - 1))%Z);
          rewrite Z.log2_pow2 by lia; [lia|].
        rewrite <- Z.pow_add_r by lia. f_equal. lia.
      + assert (Hlog : Z.log2 (n * 2 ^ a) = (a + Z.log2 n)%Z)
          by (apply Z.log2_mul_pow2; lia).
        assert (Hln : (Z.log2 n < prec fmt)%Z)
          by (apply Z.log2_lt_pow2; lia).
        pose proof (Z.log2_nonneg n) as Hln0.
        set (s := Z.max (Z.log2 (n * 2 ^ a) - prec fmt + 1) 0).
        apply (round_units_of_multiple _ _ (n * 2 ^ (a - s))%Z);
          fold s; [lia|].
        rewrite <- Z.mul_assoc, <- Z.pow_add_r by lia. do 2 f_equal. lia. }
  rewrite Hfix.
  destruct (Z.leb_spec (overflow_units fmt) (n * 2 ^ a)) as [Hover|_].
  - exfalso. unfold overflow_units in Hover.
    replace (emax fmt - emin fmt)%Z with (emax fmt + a)%Z in Hover by lia.
    rewrite Z.pow_add_r in Hover by lia.
    assert (Hpow : (2 ^ prec fmt < 2 ^ emax fmt)%Z)
      by (apply Z.pow_lt_mono_r; lia).
    pose proof (Z.pow_pos_nonneg 2 a ltac:(lia) Ha).
    nia.
  - f_equal. rewrite Z2Qc_inj_mul. field.
    apply Qc_pos_nonzero. by apply Qc_of_Z_pow2_pos.
Qed.

(** [rnd] is the rounding of [SpecFloat]: around the subnormal numbers,
    at the ties of 25 and 54 bits, and at the edge of the range. *)
Example rnd_agrees_with_SpecFloat :
  agrees_from binary32 (-152) 64 0 = true
  ∧ agrees_from binary32 (-3) 64 (2 ^ 24 - 32) = true
  ∧ agrees_from binary32 (-3) 64 (- 2 ^ 27 - 32) = true
  ∧ agrees_from binary32 102 64 (2 ^ 26 - 32) = true
  ∧ agrees_from binary64 (-1077) 64 0 = true
  ∧ agrees_from binary64 (-3) 64 (2 ^ 53 - 32) = true
  ∧ agrees_from binary64 969 64 (2 ^ 55 - 32) = true.
Proof. vm_compute. repeat split. Qed.

Example operations_agree_with_SpecFloat :
  operations_agree binary32 8796093 (-43) 1 (-2) = true
  ∧ operations_agree binary32 16777217 0 2 0 = true
  ∧ operations_agree binary32 (2 ^ 24 - 1) 104 (2 ^ 24 - 1) 104 = true
  ∧ operations_agree binary32 1 0 0 0 = true
  ∧ operations_agree binary32 (-3) 0 0 0 = true
  ∧ operations_agree binary32 0 0 0 0 = true
  ∧ operations_agree binary32 1 (-149) 3 0 = true
  ∧ operations_agree binary64 1 0 10 0 = true
  ∧ operations_agree binary64 1 0 3 0 = true
  ∧ operations_agree binary64 (2 ^ 53 - 1) 971 1 (-1074) = true.
Proof. vm_compute. repeat split. Qed.

(** ** Conversion of integers *)

Lemma py_float_limit_rounds :
  (∃ v, rnd binary64 (Qc_of_Z (py_float_limit - 1)) = Fin v)
  ∧ rnd binary64 (Qc_of_Z py_float_limit) = PInf.
Proof. split; [eexists|]; vm_compute; reflexivity. Qed.

Lemma py_float_in_range (n : Z) :
  (0 ≤ n < py_float_limit)%Z →
  ∃ v, Rounded.py_float n = Ok (Fin v) ∧ rnd binary64 (Qc_of_Z n) = Fin v.
Proof.
  intros [Hn0 Hn]. destruct py_float_limit_rounds as [[top Htop] _].
  assert (Hlo : f_le (Fin 0) (rnd binary64 (Qc_of_Z n))).
  { apply rnd_sign; [exact binary64_well_formed|].
    rewrite <- Z2Qc_inj_0. apply Qc_of_Z_le. exact Hn0. }
  assert (Hhi : f_le (rnd binary64 (Qc_of_Z n)) (Fin top)).
  { rewrite <- Htop. apply rnd_monotone; [exact binary64_well_formed|].
    apply Qc_of_Z_le. lia. }
  clear Htop.
  destruct (f_le_between _ _ _ Hlo Hhi) as (v & Hv & _).
  exists v. unfold Rounded.py_float. rewrite Hv. split; reflexivity.
Qed.

Lemma py_float_overflow (n : Z) :
  (py_float_limit ≤ n)%Z → Rounded.py_float n = Raise OverflowError.
Proof.
  intros Hn. destruct py_float_limit_rounds as [_ Htop].
  assert (Hhi : f_le PInf (rnd binary64 (Qc_of_Z n))).
  { rewrite <- Htop.
    apply rnd_monotone; [exact binary64_well_formed|].
    apply Qc_of_Z_le. exact Hn. }
  clear Htop. unfold Rounded.py_float.
  destruct (rnd binary64 (Qc_of_Z n)) as [q| | |];
    [exfalso; exact Hhi|reflexivity..].
Qed.

(** * The modules in IEEE arithmetic *)

(** ** Concrete floats *)

Lemma same_eq (x y : float) : same x y = true → x = y.
Proof.
  destruct x as [a| | |], y as [b| | |]; cbn; try done.
  intros H. f_equal. by apply bool_decide_eq_true in H.
Qed.

Ltac float_eq := apply same_eq; vm_compute; reflexivity.

Lemma py_float_limit_above (n : Z) :
  (n ≤ 2 ^ 53)%Z → (n < py_float_limit)%Z.
Proof.
  intros Hn. apply (Z.le_lt_trans _ (2 ^ 53)); [exact Hn|].
  vm_compute. reflexivity.
Qed.

(** ** Construction of [BitWidthParameter] in IEEE arithmetic *)

Lemma Rounded_BitWidthParameter_init_valid {P}
    (methods : Rounded.RestrictValue P) (bit_width min_bit_width : Z)
    (p : P) (o : bool) :
  (2 ≤ min_bit_width ≤ bit_width)%Z → (bit_width < py_float_limit)%Z →
  ∃ fb fm,
    rnd binary64 (Qc_of_Z bit_width) = Fin fb
    ∧ rnd binary64 (Qc_of_Z min_bit_width) = Fin fm
    ∧ Rounded.BitWidthParameter.__init__ methods bit_width min_bit_width p o
      = Ok {| Rounded.BitWidthParameter.bit_width_offset :=
                Rounded.torch_tensor
                  (f_sub binary64
                     (Rounded.restrict_init_float methods (Fin fb))
                     (Rounded.restrict_init_float methods (Fin fm)));
              Rounded.BitWidthParameter.bit_width_base :=
                Rounded.restrict_init_float methods (Fin fm);
              Rounded.BitWidthParameter.restrict_bit_width_impl := p;
              Rounded.BitWidthParameter.override_pretrained := o |}.
Proof.
  intros [Hmin Hle] Hlim.
  destruct (py_float_in_range bit_width) as (fb & Hb & Hrb); [lia|].
  destruct (py_float_in_range min_bit_width) as (fm & Hm & Hrm); [lia|].
  exists fb, fm. split; [exact Hrb|]. split; [exact Hrm|].
  unfold Rounded.BitWidthParameter.__init__, MIN_INT_BIT_WIDTH, py_int.
  case_ltb bit_width 2%Z; [lia|].
  case_ltb min_bit_width 2%Z; [lia|].
  case_ltb bit_width min_bit_width; [lia|].
  rewrite Hb, Hm. reflexivity.
Qed.

Lemma Rounded_BitWidthParameter_init_overflow {P}
    (methods : Rounded.RestrictValue P) (bit_width min_bit_width : Z)
    (p : P) (o : bool) :
  (2 ≤ min_bit_width ≤ bit_width)%Z → (py_float_limit ≤ bit_width)%Z →
  Rounded.BitWidthParameter.__init__ methods bit_width min_bit_width p o
  = Raise OverflowError.
Proof.
  intros [Hmin Hle] Hlim.
  unfold Rounded.BitWidthParameter.__init__, MIN_INT_BIT_WIDTH, py_int.
  case_ltb bit_width 2%Z; [lia|].
  case_ltb min_bit_width 2%Z; [lia|].
  case_ltb bit_width min_bit_width; [lia|].
  rewrite (py_float_overflow bit_width Hlim). reflexivity.
Qed.

(** C3: construction is rejected with a [RuntimeError] exactly when
    [bit_width < 2], [min_bit_width < 2] or [bit_width < min_bit_width];
    the checks run in this order and the first that fails determines the
    message.  With [bit_width >= min_bit_width >= 2] construction succeeds
    when [bit_width] is below [2^1024 - 2^970], the integers that [float]
    converts, and otherwise ends in an [OverflowError], which is not the
    error of a rejected configuration. *)
Theorem BitWidthParameter_init_outcome {P}
    (methods : Rounded.RestrictValue P) (bit_width min_bit_width : Z)
    (p : P) (o : bool) :
  let r :=
    Rounded.BitWidthParameter.__init__ methods bit_width min_bit_width p o in
  (raises_RuntimeError r ↔
     (bit_width < 2 ∨ min_bit_width < 2 ∨ bit_width < min_bit_width)%Z)
  ∧ ((bit_width < 2)%Z →
       r = Raise (RuntimeError
             (format "Int bit width has to be at least {}, instead is {}."
                [pretty 2%Z; pretty bit_width])))
  ∧ ((2 ≤ bit_width)%Z → (min_bit_width < 2)%Z →
       r = Raise (RuntimeError
             (format "Min int bit width has to be at least {}, instead is {}."
                [pretty 2%Z; pretty min_bit_width])))
  ∧ ((2 ≤ bit_width)%Z → (2 ≤ min_bit_width)%Z →
     (bit_width < min_bit_width)%Z →
       r = Raise (RuntimeError
             (format "Int bit width has to be at least {}, instead is {}."
                [pretty min_bit_width; pretty bit_width])))
  ∧ ((2 ≤ min_bit_width ≤ bit_width)%Z → (bit_width < py_float_limit)%Z →
       ∃ m, r = Ok m)
  ∧ ((2 ≤ min_bit_width ≤ bit_width)%Z → (py_float_limit ≤ bit_width)%Z →
       r = Raise OverflowError).
Proof.
  intros r.
  assert (Hvalid : (2 ≤ min_bit_width ≤ bit_width)%Z →
                   ¬ raises_RuntimeError r).
  { intros Hv [msg Hr]. subst r.
    destruct (Z_lt_le_dec bit_width py_float_limit) as [Hlt|Hge].
    - destruct (Rounded_BitWidthParameter_init_valid methods _ _ p o Hv Hlt)
        as (fb & fm & _ & _ & Hinit).
      rewrite Hinit in Hr. discriminate Hr.
    - rewrite (Rounded_BitWidthParameter_init_overflow methods _ _ p o Hv Hge)
        in Hr.
      discriminate Hr. }
  assert (H1 : (bit_width < 2)%Z →
    r = Raise (RuntimeError
          (format "Int bit width has to be at least {}, instead is {}."
             [pretty 2%Z; pretty bit_width]))).
  { intros H. subst r.
    unfold Rounded.BitWidthParameter.__init__, MIN_INT_BIT_WIDTH.
    case_ltb bit_width 2%Z; [reflexivity|lia]. }
  assert (H2 : (2 ≤ bit_width)%Z → (min_bit_width < 2)%Z →
    r = Raise (RuntimeError
          (format "Min int bit width has to be at least {}, instead is {}."
             [pretty 2%Z; pretty min_bit_width]))).
  { intros Hb H. subst r.
    unfold Rounded.BitWidthParameter.__init__, MIN_INT_BIT_WIDTH.
    case_ltb bit_width 2%Z; [lia|].
    case_ltb min_bit_width 2%Z; [reflexivity|lia]. }
  assert (H3 : (2 ≤ bit_width)%Z → (2 ≤ min_bit_width)%Z →
    (bit_width < min_bit_width)%Z →
    r = Raise (RuntimeError
          (format "Int bit width has to be at least {}, instead is {}."
             [pretty min_bit_width; pretty bit_width]))).
  { intros Hb Hm H. subst r.
    unfold Rounded.BitWidthParameter.__init__, MIN_INT_BIT_WIDTH.
    case_ltb bit_width 2%Z; [lia|].
    case_ltb min_bit_width 2%Z; [lia|].
    case_ltb bit_width min_bit_width; [reflexivity|lia]. }
  split; [|split; [exact H1|split; [exact H2|split; [exact H3|split]]]].
  - split.
    + intros Hr.
      destruct (Z_lt_le_dec bit_width 2) as [|Hb]; [by left|].
      destruct (Z_lt_le_dec min_bit_width 2) as [|Hm]; [by right; left|].
      destruct (Z_lt_le_dec bit_width min_bit_width) as [|Hle];
        [by right; right|].
      exfalso. apply Hvalid; [lia|exact Hr].
    + intros Hbad.
      destruct (Z_lt_le_dec bit_width 2) as [Hb|Hb];
        [eexists; exact (H1 Hb)|].
      destruct (Z_lt_le_dec min_bit_width 2) as [Hm|Hm];
        [eexists; exact (H2 Hb Hm)|].
      destruct (Z_lt_le_dec bit_width min_bit_width) as [Hlt|Hle];
        [eexists; exact (H3 Hb Hm Hlt)|lia].
  - intros Hv Hlt. subst r.
    destruct (Rounded_BitWidthParameter_init_valid methods _ _ p o Hv Hlt)
      as (fb & fm & _ & _ & Hinit).
    eexists. exact Hinit.
  - intros Hv Hge. subst r.
    by apply Rounded_BitWidthParameter_init_overflow.
Qed.

(** C3, refuted as stated: [bit_width = 10^400] with [min_bit_width = 2]
    passes the three checks, and construction ends in the
    [OverflowError] of [float(int(bit_width))]. *)
Lemma BitWidthParameter_init_valid_arguments_overflow :
  (2 ≤ 2 ≤ 10 ^ 400)%Z
  ∧ Rounded.BitWidthParameter.__init__ Rounded.IntRestrictValue_RoundSte
      (10 ^ 400) 2 tt false
    = Raise OverflowError.
Proof.
  split; [split; [reflexivity|vm_compute; discriminate]|].
  vm_compute. reflexivity.
Qed.

(** ** [BitWidthParameter.forward] in IEEE arithmetic *)

Lemma Rounded_BitWidthParameter_forward_run {P}
    (methods : Rounded.RestrictValue P) (abs : float → float)
    (m : Rounded.BitWidthParameter.t P) :
  Rounded.BitWidthParameter.forward methods abs m
  = Rounded.BitWidthParameter.call_restrict_bit_width_impl methods
      (f_add binary32 (abs (Rounded.BitWidthParameter.bit_width_offset m))
         (f_conv binary32 (Rounded.BitWidthParameter.bit_width_base m)))
      m.
Proof.
  unfold Rounded.BitWidthParameter.forward, mbind, Py_bind, mret, Py_ret,
    getattr.
  destruct (Rounded.BitWidthParameter.call_restrict_bit_width_impl _ _ m)
    as [[v m']|e]; reflexivity.
Qed.

(** The sum of [forward] on the offset and base that construction leaves,
    when nothing is rounded away. *)
Lemma offset_plus_base (a b : Qc) :
  a ≤ b →
  representable binary64 (b - a) → representable binary32 (b - a) →
  representable binary32 a → representable binary32 b →
  f_add binary32
    (Rounded.abs_binary_sign_grad
       (Rounded.torch_tensor (f_sub binary64 (Fin b) (Fin a))))
    (f_conv binary32 (Fin a))
  = Fin b.
Proof.
  unfold representable. intros Hab H64 H32 Ha Hb.
  unfold f_sub, f_opp, f_add, Rounded.torch_tensor,
    Rounded.abs_binary_sign_grad.
  change (b + - a) with (b - a). rewrite H64. cbn [f_conv].
  rewrite H32, Ha. cbn [f_abs].
  rewrite Qcabs_pos by (by apply Qcle_minus_iff in Hab).
  replace (b - a + a) with b by ring. exact Hb.
Qed.

(** C1: for [bit_width >= min_bit_width >= 2] in the range of [float],
    when the policy's initial values [a] of [min_bit_width] and [b] of
    [bit_width] satisfy [a <= b] and [a], [b] and [b - a] are binary32
    numbers ([b - a] also a double), [forward] on the module just built
    is the policy called on [b], the restricted initial value of
    [bit_width]: the same value and the same effect on the policy. *)
Theorem BitWidthParameter_init_forward_exact {P}
    (methods : Rounded.RestrictValue P) (bit_width min_bit_width : Z)
    (p : P) (o : bool) (a b : Qc) :
  (2 ≤ min_bit_width ≤ bit_width)%Z → (bit_width < py_float_limit)%Z →
  Rounded.restrict_init_float methods (rnd binary64 (Qc_of_Z min_bit_width))
  = Fin a →
  Rounded.restrict_init_float methods (rnd binary64 (Qc_of_Z bit_width))
  = Fin b →
  a ≤ b →
  representable binary64 (b - a) → representable binary32 (b - a) →
  representable binary32 a → representable binary32 b →
  ∃ m,
    Rounded.BitWidthParameter.__init__ methods bit_width min_bit_width p o
    = Ok m
    ∧ Rounded.BitWidthParameter.forward methods
        Rounded.abs_binary_sign_grad m
      = Rounded.BitWidthParameter.call_restrict_bit_width_impl methods
          (Rounded.restrict_init_float methods
             (rnd binary64 (Qc_of_Z bit_width)))
          m.
Proof.
  intros Hv Hlim Hmin Hbw Hab H64 H32 Ha Hb.
  destruct (Rounded_BitWidthParameter_init_valid methods _ _ p o Hv Hlim)
    as (fb & fm & Hfb & Hfm & Hinit).
  eexists. split; [exact Hinit|].
  rewrite Rounded_BitWidthParameter_forward_run. cbn.
  rewrite Hfb in Hbw |- *. rewrite Hfm in Hmin. rewrite Hbw, Hmin.
  f_equal. by apply offset_plus_base.
Qed.

Lemma BitWidthParameter_init_forward_exact_witness :
  ∃ m,
    Rounded.BitWidthParameter.__init__ Rounded.IntRestrictValue_RoundSte
      8 2 tt false
    = Ok m
    ∧ Rounded.BitWidthParameter.forward Rounded.IntRestrictValue_RoundSte
        Rounded.abs_binary_sign_grad m
      = Rounded.BitWidthParameter.call_restrict_bit_width_impl
          Rounded.IntRestrictValue_RoundSte
          (Rounded.restrict_init_float Rounded.IntRestrictValue_RoundSte
             (rnd binary64 (Qc_of_Z 8)))
          m.
Proof.
  apply (BitWidthParameter_init_forward_exact
           Rounded.IntRestrictValue_RoundSte 8 2 tt false
           (Qc_of_Z 2) (Qc_of_Z 8)).
  - lia.
  - apply py_float_limit_above. vm_compute. discriminate.
  - float_eq.
  - float_eq.
  - qc_cmp.
  - float_eq.
  - float_eq.
  - float_eq.
  - float_eq.
Defined.

(** C1, refuted as stated: with the default policy, [bit_width = 16777219]
    and [min_bit_width = 2] the offset [16777217] is stored as the
    binary32 number [16777216], and [forward] returns [16777218]; the
    policy gives [16777219] on the double of [bit_width] and [16777220] on
    the tensor made of it. *)
Lemma BitWidthParameter_init_forward_rounds_offset :
  (2 ≤ 2 ≤ 16777219)%Z
  ∧ ∃ m,
      Rounded.BitWidthParameter.__init__ Rounded.IntRestrictValue_RoundSte
        16777219 2 tt false
      = Ok m
      ∧ Rounded.BitWidthParameter.bit_width_offset m
        = Fin (Qc_of_Z 16777216)
      ∧ Rounded.BitWidthParameter.forward Rounded.IntRestrictValue_RoundSte
          Rounded.abs_binary_sign_grad m
        = Ok (Fin (Qc_of_Z 16777218), m)
      ∧ Rounded.BitWidthParameter.call_restrict_bit_width_impl
          Rounded.IntRestrictValue_RoundSte
          (Rounded.restrict_init_float Rounded.IntRestrictValue_RoundSte
             (rnd binary64 (Qc_of_Z 16777219)))
          m
        = Ok (Fin (Qc_of_Z 16777219), m)
      ∧ Rounded.BitWidthParameter.call_restrict_bit_width_impl
          Rounded.IntRestrictValue_RoundSte
          (Rounded.torch_tensor
             (Rounded.restrict_init_float Rounded.IntRestrictValue_RoundSte
                (rnd binary64 (Qc_of_Z 16777219))))
          m
        = Ok (Fin (Qc_of_Z 16777220), m).
Proof.
  split; [lia|].
  destruct (Rounded_BitWidthParameter_init_valid
              Rounded.IntRestrictValue_RoundSte 16777219 2 tt false)
    as (fb & fm & Hfb & Hfm & Hinit);
    [lia|apply py_float_limit_above; vm_compute; discriminate|].
  assert (Hb : Fin fb = Fin (Qc_of_Z 16777219))
    by (rewrite <- Hfb; float_eq).
  assert (Hm : Fin fm = Fin (Qc_of_Z 2)) by (rewrite <- Hfm; float_eq).
  injection Hb as ->. injection Hm as ->.
  eexists. split; [exact Hinit|].
  rewrite Rounded_BitWidthParameter_forward_run.
  unfold Rounded.BitWidthParameter.call_restrict_bit_width_impl.
  cbn. rewrite Hfb.
  split; [float_eq|].
  split; [do 2 f_equal; float_eq|].
  split; [do 2 f_equal; float_eq|].
  do 2 f_equal; float_eq.
Qed.

(** X10: the docstring's example and its range: with the default policy
    every [bit_width] up to [2^24] comes back from [forward] as it was
    given. *)
Theorem BitWidthParameter_default_policy_round_trip
    (bit_width min_bit_width : Z) (o : bool) :
  (2 ≤ min_bit_width ≤ bit_width)%Z → (bit_width ≤ 2 ^ 24)%Z →
  ∃ m,
    Rounded.BitWidthParameter.__init__ Rounded.IntRestrictValue_RoundSte
      bit_width min_bit_width tt o
    = Ok m
    ∧ Rounded.BitWidthParameter.forward Rounded.IntRestrictValue_RoundSte
        Rounded.abs_binary_sign_grad m
      = Ok (Fin (Qc_of_Z bit_width), m).
Proof.
  intros Hv H24.
  assert (H53 : ∀ n, (0 ≤ n ≤ 2 ^ 24)%Z →
                representable binary64 (Qc_of_Z n)).
  { intros n Hn. apply rnd_integer; [exact binary64_well_formed|].
    split; [lia|]. apply (Z.le_trans _ (2 ^ 24)); [lia|].
    vm_compute. discriminate. }
  assert (H32 : ∀ n, (0 ≤ n ≤ 2 ^ 24)%Z →
                representable binary32 (Qc_of_Z n)).
  { intros n Hn. apply rnd_integer; [exact binary32_well_formed|exact Hn]. }
  destruct (Rounded_BitWidthParameter_init_valid
              Rounded.IntRestrictValue_RoundSte bit_width min_bit_width tt o)
    as (fb & fm & Hfb & Hfm & Hinit); [exact Hv| |].
  { apply py_float_limit_above. apply (Z.le_trans _ (2 ^ 24)); [lia|].
    vm_compute. discriminate. }
  rewrite (H53 bit_width) in Hfb by lia.
  rewrite (H53 min_bit_width) in Hfm by lia.
  injection Hfb as <-. injection Hfm as <-.
  eexists. split; [exact Hinit|].
  rewrite Rounded_BitWidthParameter_forward_run.
  unfold Rounded.BitWidthParameter.call_restrict_bit_width_impl.
  cbn [Rounded.BitWidthParameter.bit_width_offset
       Rounded.BitWidthParameter.bit_width_base
       Rounded.BitWidthParameter.restrict_bit_width_impl
       Rounded.restrict_init_float Rounded.restrict_call
       Rounded.IntRestrictValue_RoundSte
       Rounded.BitWidthParameter.set_restrict_bit_width_impl
       Rounded.BitWidthParameter.override_pretrained].
  rewrite offset_plus_base.
  - cbn [f_round]. by rewrite rne_integer.
  - apply Qc_of_Z_le. lia.
  - rewrite <- Z2Qc_inj_sub. apply H53. lia.
  - rewrite <- Z2Qc_inj_sub. apply H32. lia.
  - apply H32. lia.
  - apply H32. lia.
Qed.

Lemma BitWidthParameter_default_policy_round_trip_witness :
  ∃ m,
    Rounded.BitWidthParameter.__init__ Rounded.IntRestrictValue_RoundSte
      8 2 tt false
    = Ok m
    ∧ Rounded.BitWidthParameter.forward Rounded.IntRestrictValue_RoundSte
        Rounded.abs_binary_sign_grad m
      = Ok (Fin (Qc_of_Z 8), m).
Proof.
  apply (BitWidthParameter_default_policy_round_trip 8 2 false).
  - lia.
  - vm_compute. discriminate.
Defined.

(** ** Determinism and frame of [forward] *)



Lemma Rounded_RemoveBitwidthParameter_forward_run
    (m : Rounded.RemoveBitwidthParameter.t) :
  Rounded.RemoveBitwidthParameter.forward m
  = Ok (f_div binary32 (Fin 1)
          (f_add binary32
             (f_conv binary32
                (Rounded.RemoveBitwidthParameter.non_zero_epsilon m))
             (f_abs (Rounded.RemoveBitwidthParameter.bit_width_coeff m))),
        m).
Proof. reflexivity. Qed.




(** X11: whatever the policy does, [forward] writes no attribute of the
    module itself: when it returns, the parameter, the base and the flag
    are what they were, and only the policy's state can differ. *)
Theorem BitWidthParameter_forward_frame {P}
    (methods : Rounded.RestrictValue P) (abs : float → float)
    (m m' : Rounded.BitWidthParameter.t P) (v : float) :
  Rounded.BitWidthParameter.forward methods abs m = Ok (v, m') →
  m' = Rounded.BitWidthParameter.set_restrict_bit_width_impl
         (Rounded.BitWidthParameter.restrict_bit_width_impl m') m
  ∧ Rounded.BitWidthParameter.bit_width_offset m'
    = Rounded.BitWidthParameter.bit_width_offset m
  ∧ Rounded.BitWidthParameter.bit_width_base m'
    = Rounded.BitWidthParameter.bit_width_base m
  ∧ Rounded.BitWidthParameter.override_pretrained m'
    = Rounded.BitWidthParameter.override_pretrained m.
Proof.
  rewrite Rounded_BitWidthParameter_forward_run.
  unfold Rounded.BitWidthParameter.call_restrict_bit_width_impl.
  destruct (Rounded.restrict_call methods _ _) as [[v' p']|e]; [|done].
  intros [= _ <-]. done.
Qed.

(** A policy that writes its state shows in [forward]: with the counting
    policy two calls in a row return [8] and then [9]. *)
Example forward_counting_policy :
  let m := {| Rounded.BitWidthParameter.bit_width_offset := Fin (Qc_of_Z 6);
              Rounded.BitWidthParameter.bit_width_base := Fin (Qc_of_Z 2);
              Rounded.BitWidthParameter.restrict_bit_width_impl := 0%Z;
              Rounded.BitWidthParameter.override_pretrained := false |} in
  twice (Rounded.BitWidthParameter.forward counting_policy
           Rounded.abs_binary_sign_grad) m
  = Ok ((Fin (Qc_of_Z 8), Fin (Qc_of_Z 9)),
        Rounded.BitWidthParameter.set_restrict_bit_width_impl 2%Z m).
Proof.
  intros m. unfold twice, mbind, Py_bind, mret, Py_ret.
  rewrite Rounded_BitWidthParameter_forward_run.
  unfold Rounded.BitWidthParameter.call_restrict_bit_width_impl. cbn.
  rewrite Rounded_BitWidthParameter_forward_run.
  unfold Rounded.BitWidthParameter.call_restrict_bit_width_impl. cbn.
  f_equal. f_equal. f_equal; float_eq.
Qed.

Lemma BitWidthParameter_forward_frame_witness :
  let m := {| Rounded.BitWidthParameter.bit_width_offset := Fin (Qc_of_Z 6);
              Rounded.BitWidthParameter.bit_width_base := Fin (Qc_of_Z 2);
              Rounded.BitWidthParameter.restrict_bit_width_impl := 0%Z;
              Rounded.BitWidthParameter.override_pretrained := false |} in
  ∃ v m',
    Rounded.BitWidthParameter.forward counting_policy
      Rounded.abs_binary_sign_grad m
    = Ok (v, m')
    ∧ Rounded.BitWidthParameter.restrict_bit_width_impl m' = 1%Z
    ∧ Rounded.BitWidthParameter.bit_width_offset m'
      = Rounded.BitWidthParameter.bit_width_offset m.
Proof.
  intros m.
  assert (Hrun : Rounded.BitWidthParameter.forward counting_policy
                   Rounded.abs_binary_sign_grad m
                 = Ok (f_add binary32
                         (f_add binary32 (Fin (Qcabs (Qc_of_Z 6)))
                            (rnd binary32 (Qc_of_Z 2)))
                         (Fin (Qc_of_Z 0)),
                       Rounded.BitWidthParameter.set_restrict_bit_width_impl
                         1%Z m))
    by reflexivity.
  eexists _, _. split; [exact Hrun|]. split; [reflexivity|].
  exact (proj1 (proj2 (BitWidthParameter_forward_frame counting_policy
                         Rounded.abs_binary_sign_grad m _ _ Hrun))).
Defined.

(** ** [RemoveBitwidthParameter.forward] in IEEE arithmetic *)

Lemma f_conv_fixed (fmt : binary_format) (x : float) (e : Qc) :
  well_formed fmt → f_conv fmt x = Fin e → representable fmt e.
Proof.
  intros Hwf. destruct x as [q| | |]; cbn; try done.
  intros Hq. by apply (rnd_fixed fmt q).
Qed.

Lemma removal_forward_run (eps : float) (o : bool) (e c : Qc) :
  f_conv binary32 eps = Fin e →
  Rounded.RemoveBitwidthParameter.forward (removal_module eps o c)
  = Ok (removal_output e c, removal_module eps o c).
Proof.
  intros He. rewrite Rounded_RemoveBitwidthParameter_forward_run.
  cbn [removal_module Rounded.RemoveBitwidthParameter.non_zero_epsilon
       Rounded.RemoveBitwidthParameter.bit_width_coeff f_abs].
  by rewrite He.
Qed.

(** The sum of epsilon and the magnitude is at least epsilon. *)
Lemma removal_sum_lower (e c : Qc) :
  representable binary32 e → f_le (Fin e) (rnd binary32 (e + Qcabs c)).
Proof.
  intros He. rewrite <- He at 1.
  apply rnd_monotone; [exact binary32_well_formed|].
  rewrite <- (Qcplus_0_r e) at 1.
  apply Qcplus_le_compat; [apply Qcle_refl|apply Qcabs_nonneg].
Qed.

Lemma removal_sum_cases (e c : Qc) :
  representable binary32 e →
  (∃ s, rnd binary32 (e + Qcabs c) = Fin s ∧ e ≤ s)
  ∨ rnd binary32 (e + Qcabs c) = PInf.
Proof.
  intros He. pose proof (removal_sum_lower e c He) as Hlo.
  destruct (rnd binary32 (e + Qcabs c)) as [s| | |]; cbn in Hlo; try done.
  - left. by exists s.
  - by right.
Qed.

Lemma removal_output_finite_sum (e c s : Qc) :
  0 < s → rnd binary32 (e + Qcabs c) = Fin s →
  removal_output e c = rnd binary32 (1 / s).
Proof.
  intros Hs Hsum. unfold removal_output, f_add. rewrite Hsum.
  unfold f_div. destruct (decide (s = 0)) as [->|_]; [|reflexivity].
  by apply Qclt_not_eq in Hs.
Qed.

Lemma removal_output_infinite_sum (e c : Qc) :
  rnd binary32 (e + Qcabs c) = PInf → removal_output e c = Fin 0.
Proof. intros Hsum. unfold removal_output, f_add. by rewrite Hsum. Qed.

Lemma reciprocal_antitone (s1 s2 : Qc) :
  0 < s1 → s1 ≤ s2 → 1 / s2 ≤ 1 / s1.
Proof.
  intros H1 H12. unfold Qcdiv. rewrite !Qcmult_1_l.
  by apply Qcinv_le_antitone.
Qed.

Lemma reciprocal_nonneg (s : Qc) : 0 < s → 0 ≤ 1 / s.
Proof.
  intros Hs. unfold Qcdiv. rewrite Qcmult_1_l.
  apply Qclt_le_weak. by apply Qcinv_pos.
Qed.

Lemma removal_output_nonneg (e c : Qc) :
  0 < e → representable binary32 e → f_le (Fin 0) (removal_output e c).
Proof.
  intros Hpos He.
  destruct (removal_sum_cases e c He) as [(s & Hs & Hes)|Hinf].
  - assert (0 < s) by (by apply (Qclt_le_trans _ e)).
    rewrite (removal_output_finite_sum e c s) by done.
    apply rnd_sign; [exact binary32_well_formed|by apply reciprocal_nonneg].
  - rewrite removal_output_infinite_sum by done. apply Qcle_refl.
Qed.

Lemma removal_output_antitone (e c1 c2 : Qc) :
  0 < e → representable binary32 e → Qcabs c1 ≤ Qcabs c2 →
  f_le (removal_output e c2) (removal_output e c1).
Proof.
  intros Hpos He Hc.
  assert (Hsum : f_le (rnd binary32 (e + Qcabs c1))
                   (rnd binary32 (e + Qcabs c2))).
  { apply rnd_monotone; [exact binary32_well_formed|].
    apply Qcplus_le_compat; [apply Qcle_refl|exact Hc]. }
  destruct (removal_sum_cases e c2 He) as [(s2 & Hs2 & Hes2)|Hinf2].
  - destruct (removal_sum_cases e c1 He) as [(s1 & Hs1 & Hes1)|Hinf1].
    + rewrite Hs1, Hs2 in Hsum. cbn in Hsum.
      assert (0 < s1) by (by apply (Qclt_le_trans _ e)).
      assert (0 < s2) by (by apply (Qclt_le_trans _ e)).
      rewrite (removal_output_finite_sum e c1 s1),
        (removal_output_finite_sum e c2 s2) by done.
      apply rnd_monotone; [exact binary32_well_formed|].
      by apply reciprocal_antitone.
    + rewrite Hinf1, Hs2 in Hsum. done.
  - rewrite (removal_output_infinite_sum e c2) by done.
    by apply removal_output_nonneg.
Qed.

Lemma removal_output_at_zero (e : Qc) :
  0 < e → representable binary32 e →
  removal_output e 0 = rnd binary32 (1 / e).
Proof.
  intros Hpos He. apply removal_output_finite_sum; [exact Hpos|].
  replace (e + Qcabs 0) with e; [exact He|].
  rewrite (Qcabs_pos 0) by apply Qcle_refl. ring.
Qed.

Lemma removal_output_upper (e c : Qc) :
  0 < e → representable binary32 e →
  f_le (removal_output e c) (rnd binary32 (1 / e)).
Proof.
  intros Hpos He. rewrite <- (removal_output_at_zero e) by done.
  apply removal_output_antitone; [done..|].
  rewrite (Qcabs_pos 0) by apply Qcle_refl. apply Qcabs_nonneg.
Qed.

Lemma huge_inv_pos : 0 < / huge binary32.
Proof. qc_cmp. Qed.

Lemma huge_inv_representable : representable binary32 (/ huge binary32).
Proof. float_eq. Qed.

Lemma removal_output_positive (e c s : Qc) :
  0 < s → rnd binary32 (e + Qcabs c) = Fin s →
  f_le (Fin (/ huge binary32)) (removal_output e c).
Proof.
  intros Hs Hsum. rewrite (removal_output_finite_sum e c s) by done.
  rewrite <- huge_inv_representable at 1.
  apply rnd_monotone; [exact binary32_well_formed|].
  assert (Hlt : s < huge binary32).
  { destruct (rnd_below_huge binary32 (e + Qcabs c) s) as [_ H];
      [exact binary32_well_formed| |exact Hsum|exact H].
    destruct (Qclt_le_dec (e + Qcabs c) 0) as [Hneg|]; [|done].
    exfalso.
    assert (Hle : f_le (rnd binary32 (e + Qcabs c)) (rnd binary32 0)).
    { apply rnd_monotone; [exact binary32_well_formed|].
      by apply Qclt_le_weak. }
    rewrite Hsum, (rnd_zero binary32 binary32_well_formed) in Hle.
    cbn in Hle. by apply (Qclt_not_le _ _ Hs). }
  unfold Qcdiv. rewrite Qcmult_1_l.
  apply Qcinv_le_antitone; [exact Hs|by apply Qclt_le_weak].
Qed.

(** C5: for every finite coefficient [c] and every epsilon whose binary32
    value [e] is positive, [forward] returns the binary32 quotient of [1]
    by the binary32 sum of [e] and [|c|] and leaves the module as it was.
    The sum is a number [s >= e] or overflows to infinity; the value is
    [1 / s] rounded, at least [2^-128], in the first case and [0] in the
    second.  It is never negative, never above [1 / e] rounded, which is
    the value at [c = 0]; it does not increase with [|c|]; and it is
    finite for every [c] when [1 / e] rounded is. *)
Theorem RemoveBitwidthParameter_forward_rounded
    (eps : float) (o : bool) (e : Qc) :
  f_conv binary32 eps = Fin e → 0 < e →
  (∀ c, Rounded.RemoveBitwidthParameter.forward (removal_module eps o c)
        = Ok (removal_output e c, removal_module eps o c))
  ∧ (∀ c, (∃ s, rnd binary32 (e + Qcabs c) = Fin s ∧ e ≤ s)
          ∨ rnd binary32 (e + Qcabs c) = PInf)
  ∧ (∀ c s, rnd binary32 (e + Qcabs c) = Fin s →
       removal_output e c = rnd binary32 (1 / s)
       ∧ f_le (Fin (/ huge binary32)) (removal_output e c))
  ∧ 0 < / huge binary32
  ∧ (∀ c, rnd binary32 (e + Qcabs c) = PInf → removal_output e c = Fin 0)
  ∧ (∀ c, f_le (Fin 0) (removal_output e c)
          ∧ f_le (removal_output e c) (rnd binary32 (1 / e)))
  ∧ removal_output e 0 = rnd binary32 (1 / e)
  ∧ (∀ c1 c2, Qcabs c1 ≤ Qcabs c2 →
       f_le (removal_output e c2) (removal_output e c1))
  ∧ (∀ top, rnd binary32 (1 / e) = Fin top →
       ∀ c, ∃ v, removal_output e c = Fin v ∧ 0 ≤ v ∧ v ≤ top).
Proof.
  intros Heps Hpos.
  pose proof (f_conv_fixed binary32 eps e binary32_well_formed Heps) as He.
  split; [intros c; by apply removal_forward_run|].
  split; [intros c; by apply removal_sum_cases|].
  split.
  { intros c s Hsum.
    assert (Hs : 0 < s).
    { pose proof (removal_sum_lower e c He) as Hlo. rewrite Hsum in Hlo.
      by apply (Qclt_le_trans _ e). }
    split; [by apply removal_output_finite_sum
           |by apply (removal_output_positive e c s)]. }
  split; [exact huge_inv_pos|].
  split; [intros c; apply removal_output_infinite_sum|].
  split.
  { intros c. split; [by apply removal_output_nonneg
                     |by apply removal_output_upper]. }
  split; [by apply removal_output_at_zero|].
  split; [intros c1 c2; by apply removal_output_antitone|].
  intros top Htop c.
  apply f_le_between; [by apply removal_output_nonneg|].
  rewrite <- Htop. by apply removal_output_upper.
Qed.

Lemma RemoveBitwidthParameter_forward_rounded_witness :
  let e := Q2Qc (8796093 # 8796093022208) in
  f_conv binary32 Rounded.NON_ZERO_EPSILON = Fin e
  ∧ 0 < e
  ∧ removal_output e 0 = rnd binary32 (1 / e)
  ∧ (∀ c, Rounded.RemoveBitwidthParameter.forward
            (removal_module Rounded.NON_ZERO_EPSILON false c)
          = Ok (removal_output e c,
                removal_module Rounded.NON_ZERO_EPSILON false c)).
Proof.
  intros e.
  assert (Heps : f_conv binary32 Rounded.NON_ZERO_EPSILON = Fin e)
    by float_eq.
  assert (Hpos : 0 < e) by qc_cmp.
  pose proof (RemoveBitwidthParameter_forward_rounded
                Rounded.NON_ZERO_EPSILON false e Heps Hpos) as H.
  split; [exact Heps|]. split; [exact Hpos|].
  split; [exact (proj1 (proj2 (proj2 (proj2 (proj2 (proj2 (proj2 H)))))))
         |exact (proj1 H)].
Defined.

(** C5, refuted as stated.  Epsilon [1e-46] is positive and becomes [0]
    as a tensor operand, so that [forward] at coefficient [0] returns
    infinity.  With epsilon [0.7] the value at coefficient [0] is above
    [1 / 0.7].  With epsilon [1e-6] the coefficients [0] and [2^-100]
    both give [1000000].  With epsilon [2^127] and coefficient [2^127]
    the sum overflows and the value is [0]. *)
Lemma RemoveBitwidthParameter_forward_rounding_failures :
  (f_le (Fin 0) (Rounded.py_literal (Qpower 10 (-46)))
   ∧ Rounded.py_literal (Qpower 10 (-46)) ≠ Fin 0
   ∧ Rounded.RemoveBitwidthParameter.forward
       (removal_module (Rounded.py_literal (Qpower 10 (-46))) false 0)
     = Ok (PInf,
           removal_module (Rounded.py_literal (Qpower 10 (-46))) false 0))
  ∧ (∃ v, Rounded.RemoveBitwidthParameter.forward
            (removal_module (Rounded.py_literal (7 # 10)) false 0)
          = Ok (Fin v, removal_module (Rounded.py_literal (7 # 10)) false 0)
        ∧ Q2Qc (10 # 7) < v)
  ∧ (Qcabs 0 < Qcabs (Q2Qc (Qpower 2 (-100)))
     ∧ Rounded.RemoveBitwidthParameter.forward
         (removal_module Rounded.NON_ZERO_EPSILON false 0)
       = Ok (Fin (Qc_of_Z 1000000),
             removal_module Rounded.NON_ZERO_EPSILON false 0)
     ∧ Rounded.RemoveBitwidthParameter.forward
         (removal_module Rounded.NON_ZERO_EPSILON false
            (Q2Qc (Qpower 2 (-100))))
       = Ok (Fin (Qc_of_Z 1000000),
             removal_module Rounded.NON_ZERO_EPSILON false
               (Q2Qc (Qpower 2 (-100)))))
  ∧ Rounded.RemoveBitwidthParameter.forward
      (removal_module (Fin (Q2Qc (Qpower 2 127))) false
         (Q2Qc (Qpower 2 127)))
    = Ok (Fin 0,
          removal_module (Fin (Q2Qc (Qpower 2 127))) false
            (Q2Qc (Qpower 2 127))).
Proof.
  split; [split; [|split]|split; [|split; [split; [|split]|]]].
  - vm_compute. discriminate.
  - intros H. apply (f_equal (λ x, same x (Fin 0))) in H.
    vm_compute in H. discriminate H.
  - rewrite Rounded_RemoveBitwidthParameter_forward_run.
    do 2 f_equal; float_eq.
  - exists (Q2Qc (5991863 # 4194304)). split.
    + rewrite Rounded_RemoveBitwidthParameter_forward_run.
      do 2 f_equal; float_eq.
    + qc_cmp.
  - qc_cmp.
  - rewrite Rounded_RemoveBitwidthParameter_forward_run.
    do 2 f_equal; float_eq.
  - rewrite Rounded_RemoveBitwidthParameter_forward_run.
    do 2 f_equal; float_eq.
  - rewrite Rounded_RemoveBitwidthParameter_forward_run.
    do 2 f_equal; float_eq.
Qed.

(** ** Construction of [RemoveBitwidthParameter] in IEEE arithmetic *)

Lemma py_float_one : Rounded.py_float 1 = Ok (Fin (Qc_of_Z 1)).
Proof.
  unfold Rounded.py_float.
  rewrite (rnd_integer binary64 1 binary64_well_formed); [reflexivity|].
  split; [lia|]. vm_compute. discriminate.
Qed.

Lemma reciprocal_rounds_finite (b : Z) :
  (0 < b)%Z →
  ∃ d, rnd binary64 (Qc_of_Z 1 / Qc_of_Z b) = Fin d ∧ 0 ≤ d ∧ d ≤ Qc_of_Z 1.
Proof.
  intros Hb.
  assert (Hpos : 0 < Qc_of_Z b).
  { rewrite <- Z2Qc_inj_0. by apply Qc_of_Z_lt. }
  assert (Hone : Qc_of_Z 1 = 1) by qc_eq.
  apply f_le_between.
  - apply rnd_sign; [exact binary64_well_formed|].
    rewrite Hone. by apply reciprocal_nonneg.
  - rewrite <- (rnd_integer binary64 1 binary64_well_formed);
      [|split; [lia|vm_compute; discriminate]].
    apply rnd_monotone; [exact binary64_well_formed|].
    assert (Hinv : / Qc_of_Z b ≤ / Qc_of_Z 1).
    { apply Qcinv_le_antitone; [qc_cmp|]. apply Qc_of_Z_le. lia. }
    replace (/ Qc_of_Z 1) with (Qc_of_Z 1) in Hinv by qc_eq.
    unfold Qcdiv. rewrite Hone at 1. by rewrite Qcmult_1_l.
Qed.

Lemma Rounded_RemoveBitwidthParameter_init_positive
    (b : Z) (o : bool) (eps rz : float) :
  (0 < b)%Z →
  ∃ d, rnd binary64 (Qc_of_Z 1 / Qc_of_Z b) = Fin d
     ∧ Rounded.RemoveBitwidthParameter.__init__ b o eps rz
       = Ok {| Rounded.RemoveBitwidthParameter.bit_width_coeff :=
                 rnd binary32 d;
               Rounded.RemoveBitwidthParameter.non_zero_epsilon := eps;
               Rounded.RemoveBitwidthParameter.override_pretrained := o |}.
Proof.
  intros Hb. destruct (reciprocal_rounds_finite b Hb) as (d & Hd & _).
  exists d. split; [exact Hd|].
  unfold Rounded.RemoveBitwidthParameter.__init__, Rounded.py_truediv_int.
  case_ltb b 0%Z; [lia|].
  destruct (Z.eqb_spec b 0) as [|_]; [lia|].
  rewrite Hd. reflexivity.
Qed.

Lemma Rounded_RemoveBitwidthParameter_init_zero
    (o : bool) (eps : float) (q : Qc) :
  q ≠ 0 →
  Rounded.RemoveBitwidthParameter.__init__ 0 o eps (Fin q)
  = Ok {| Rounded.RemoveBitwidthParameter.bit_width_coeff :=
            f_conv binary32 (rnd binary64 (Qc_of_Z 1 / q));
          Rounded.RemoveBitwidthParameter.non_zero_epsilon := eps;
          Rounded.RemoveBitwidthParameter.override_pretrained := o |}.
Proof.
  intros Hq.
  unfold Rounded.RemoveBitwidthParameter.__init__, Rounded.py_truediv.
  cbn [Z.ltb Z.eqb Z.compare]. rewrite py_float_one.
  unfold mbind, result_bind, mret, result_ret.
  destruct (decide (q = 0)) as [|_]; [done|].
  unfold f_div, Rounded.torch_tensor.
  by destruct (decide (q = 0)).
Qed.

(** C6: for [bit_width_to_remove > 0] the coefficient starts as the
    binary32 value of the double [1 / bit_width_to_remove], and for
    [bit_width_to_remove = 0] as the binary32 value of the double
    [1 / remove_zero_bit_width].  With the defaults, [0] gives
    coefficient [10] and [forward] returns [3355443 / 33554432], within
    [5e-9] of [0.09999999]; [4] gives coefficient [0.25] and [forward]
    returns [4194287 / 1048576], within [5e-7] of [3.999984]. *)
Theorem RemoveBitwidthParameter_init_coefficient_rounded :
  (∀ b o eps rz, (0 < b)%Z →
     ∃ d, rnd binary64 (Qc_of_Z 1 / Qc_of_Z b) = Fin d
        ∧ Rounded.RemoveBitwidthParameter.__init__ b o eps rz
          = Ok {| Rounded.RemoveBitwidthParameter.bit_width_coeff :=
                    rnd binary32 d;
                  Rounded.RemoveBitwidthParameter.non_zero_epsilon := eps;
                  Rounded.RemoveBitwidthParameter.override_pretrained :=
                    o |})
  ∧ (∀ o eps q, q ≠ 0 →
       Rounded.RemoveBitwidthParameter.__init__ 0 o eps (Fin q)
       = Ok {| Rounded.RemoveBitwidthParameter.bit_width_coeff :=
                 f_conv binary32 (rnd binary64 (Qc_of_Z 1 / q));
               Rounded.RemoveBitwidthParameter.non_zero_epsilon := eps;
               Rounded.RemoveBitwidthParameter.override_pretrained := o |})
  ∧ (∃ m, Rounded.RemoveBitwidthParameter.__init__ 0 false
            Rounded.NON_ZERO_EPSILON Rounded.REMOVE_ZERO_BIT_WIDTH
          = Ok m
        ∧ Rounded.RemoveBitwidthParameter.bit_width_coeff m
          = Fin (Qc_of_Z 10)
        ∧ Rounded.RemoveBitwidthParameter.forward m
          = Ok (Fin (Q2Qc (3355443 # 33554432)), m)
        ∧ Qcabs (Q2Qc (3355443 # 33554432) - Q2Qc (9999999 # 100000000))
          ≤ Q2Qc (5 # 1000000000))
  ∧ (∃ m, Rounded.RemoveBitwidthParameter.__init__ 4 false
            Rounded.NON_ZERO_EPSILON Rounded.REMOVE_ZERO_BIT_WIDTH
          = Ok m
        ∧ Rounded.RemoveBitwidthParameter.bit_width_coeff m
          = Fin (Q2Qc (1 # 4))
        ∧ Rounded.RemoveBitwidthParameter.forward m
          = Ok (Fin (Q2Qc (4194287 # 1048576)), m)
        ∧ Qcabs (Q2Qc (4194287 # 1048576) - Q2Qc (3999984 # 1000000))
          ≤ Q2Qc (5 # 10000000)).
Proof.
  split; [intros b o eps rz;
          apply Rounded_RemoveBitwidthParameter_init_positive|].
  split; [intros o eps q;
          apply Rounded_RemoveBitwidthParameter_init_zero|].
  split.
  - assert (Hrz : Rounded.REMOVE_ZERO_BIT_WIDTH
                  = Fin (Q2Qc (3602879701896397 # 36028797018963968)))
      by float_eq.
    rewrite Hrz. eexists. split.
    + apply Rounded_RemoveBitwidthParameter_init_zero. qc_cmp.
    + split; [float_eq|]. split; [|qc_cmp].
      rewrite Rounded_RemoveBitwidthParameter_forward_run.
      do 2 f_equal; float_eq.
  - destruct (Rounded_RemoveBitwidthParameter_init_positive 4 false
                Rounded.NON_ZERO_EPSILON Rounded.REMOVE_ZERO_BIT_WIDTH)
      as (d & Hd & Hinit); [lia|].
    assert (Hquarter : rnd binary64 (Qc_of_Z 1 / Qc_of_Z 4)
                       = Fin (Q2Qc (1 # 4))) by float_eq.
    rewrite Hquarter in Hd. injection Hd as <-.
    eexists. split; [exact Hinit|].
    split; [float_eq|]. split; [|qc_cmp].
    rewrite Rounded_RemoveBitwidthParameter_forward_run.
    do 2 f_equal; float_eq.
Qed.

(** C6, refuted as stated: with the defaults and [bit_width_to_remove = 0]
    [forward] returns a value above [0.0999999], more than [9e-7] away
    from the [0.0999990] that the specification prints. *)
Lemma RemoveBitwidthParameter_default_forward_not_0_0999990 :
  ∃ m v,
    Rounded.RemoveBitwidthParameter.__init__ 0 false
      Rounded.NON_ZERO_EPSILON Rounded.REMOVE_ZERO_BIT_WIDTH
    = Ok m
    ∧ Rounded.RemoveBitwidthParameter.forward m = Ok (Fin v, m)
    ∧ Q2Qc (999999 # 10000000) < v
    ∧ Q2Qc (9 # 10000000) < v - Q2Qc (999990 # 10000000).
Proof.
  assert (Hrz : Rounded.REMOVE_ZERO_BIT_WIDTH
                = Fin (Q2Qc (3602879701896397 # 36028797018963968)))
    by float_eq.
  rewrite Hrz. eexists. exists (Q2Qc (3355443 # 33554432)). split.
  - apply Rounded_RemoveBitwidthParameter_init_zero. qc_cmp.
  - split; [|split; qc_cmp].
    rewrite Rounded_RemoveBitwidthParameter_forward_run.
    do 2 f_equal; float_eq.
Qed.
